(** * Stream-record processing utilities of the Kafka streaming demo

    Shallow embedding of [06-kafka-spark-streaming/app/data_processor.py]:
    the three validators, the three enrichers and the three aggregators,
    over a small fragment of the Python runtime (scalar values, their
    comparisons and arithmetic, exceptions, dictionaries, a store of
    dictionary objects and the wall clock).

    Layout: the runtime fragment, the embedded functions, the statements
    taken from the specification's words, and then the theorems. *)

From Stdlib Require Import ZArith PrimFloat SpecFloat FloatOps.
From stdpp Require Import gmap strings list.

Local Open Scope Z_scope.

(* ===================================================================== *)
(** ** Exceptions and results *)
(* ===================================================================== *)

(** The exceptions the embedded code can raise. *)
Inductive exn : Set :=
| TypeError
| OverflowError
| ZeroDivisionError
| ValueError
| KeyError
| AttributeError.

(** The outcome of evaluating a Python expression: a value or a raised
    exception. *)
Inductive result (A : Type) : Type :=
| Ok (a : A)
| Raise (e : exn).
Arguments Ok {A} a.
Arguments Raise {A} e.

Global Instance result_ret : MRet result := λ A a, Ok a.
Global Instance result_bind : MBind result := λ A B k r,
  match r with
  | Ok a => k a
  | Raise e => Raise e
  end.

Definition returns {A : Type} (r : result A) : Prop := ∃ a, r = Ok a.

(* ===================================================================== *)
(** ** Scalar values *)
(* ===================================================================== *)

(** Record fields hold scalars (spec, data model: string, number, boolean,
    timestamp string); [None] is what a JSON [null] decodes to.  Integers
    are unbounded, floats are IEEE binary64.  A field that holds a list or
    a dictionary (a JSON array or object) is outside this model: every
    statement below is about records of scalars, which are all hashable. *)
Inductive pyval : Set :=
| VNone
| VBool (b : bool)
| VInt (z : Z)
| VFloat (f : float)
| VStr (s : string).

(** The numeric view of a value: [bool] is a subclass of [int]. *)
Inductive num : Set :=
| NInt (z : Z)
| NFloat (f : float).

Definition as_num (v : pyval) : option num :=
  match v with
  | VBool b => Some (NInt (if b then 1 else 0))
  | VInt z => Some (NInt z)
  | VFloat f => Some (NFloat f)
  | VNone | VStr _ => None
  end.

Definition of_num (n : num) : pyval :=
  match n with
  | NInt z => VInt z
  | NFloat f => VFloat f
  end.

Definition is_number (v : pyval) : Prop := is_Some (as_num v).

(** [int.__float__]: the nearest binary64 (ties to even); an integer whose
    rounding leaves the finite range raises [OverflowError]. *)
Definition Z_to_float (z : Z) : float :=
  SF2Prim (binary_normalize prec emax z 0 false).

Definition float_of_int (z : Z) : result float :=
  match binary_normalize prec emax z 0 false with
  | S754_infinity _ => Raise OverflowError
  | sf => Ok (SF2Prim sf)
  end.

(** Python compares an [int] with a [float] exactly, without rounding the
    integer: the float is taken apart into sign, mantissa and exponent and
    the two are compared as integers.  [None] stands for "unordered" (the
    float is a NaN). *)
Definition Zcompare_float (z : Z) (f : float) : option comparison :=
  match Prim2SF f with
  | S754_nan => None
  | S754_zero _ => Some (z ?= 0)
  | S754_infinity s => Some (if s then Gt else Lt)
  | S754_finite s m e =>
      let n := if s then Z.neg m else Z.pos m in
      Some (if 0 <=? e then z ?= n * 2 ^ e else z * 2 ^ (- e) ?= n)
  end.

Definition float_compare (f g : float) : option comparison :=
  match PrimFloat.compare f g with
  | FEq => Some Eq
  | FLt => Some Lt
  | FGt => Some Gt
  | FNotComparable => None
  end.

Definition num_compare (a b : num) : option comparison :=
  match a, b with
  | NInt x, NInt y => Some (x ?= y)
  | NInt x, NFloat g => Zcompare_float x g
  | NFloat f, NInt y => CompOpp <$> Zcompare_float y f
  | NFloat f, NFloat g => float_compare f g
  end.

(** Rich comparison of two scalars: numbers with numbers, strings with
    strings (by code point, which on UTF-8 bytes is the byte order);
    anything else is a [TypeError]. *)
Definition py_compare (a b : pyval) : result (option comparison) :=
  match as_num a, as_num b with
  | Some x, Some y => Ok (num_compare x y)
  | _, _ =>
      match a, b with
      | VStr s, VStr t => Ok (Some (String.compare s t))
      | _, _ => Raise TypeError
      end
  end.

Definition is_lt (c : option comparison) : bool :=
  match c with Some Lt => true | _ => false end.
Definition is_le (c : option comparison) : bool :=
  match c with Some Lt | Some Eq => true | _ => false end.
Definition is_gt (c : option comparison) : bool :=
  match c with Some Gt => true | _ => false end.

(** [a < b], [a <= b], [a > b]. *)
Definition py_lt (a b : pyval) : result bool :=
  c ← py_compare a b; Ok (is_lt c).
Definition py_le (a b : pyval) : result bool :=
  c ← py_compare a b; Ok (is_le c).
Definition py_gt (a b : pyval) : result bool :=
  c ← py_compare a b; Ok (is_gt c).

(** [a == b] on scalars; it never raises. *)
Definition py_eq (a b : pyval) : bool :=
  match as_num a, as_num b with
  | Some x, Some y =>
      match num_compare x y with Some Eq => true | _ => false end
  | None, None =>
      match a, b with
      | VStr s, VStr t => String.eqb s t
      | VNone, VNone => true
      | _, _ => false
      end
  | _, _ => false
  end.

(** Truth value of a scalar ([if v:], [not v]). *)
Definition py_truthy (v : pyval) : bool :=
  match v with
  | VNone => false
  | VBool b => b
  | VInt z => negb (z =? 0)
  | VFloat f => negb (PrimFloat.eqb f 0)
  | VStr s => negb (String.eqb s "")
  end.

(** *** Arithmetic *)

Definition num_add (a b : num) : result num :=
  match a, b with
  | NInt x, NInt y => Ok (NInt (x + y))
  | NInt x, NFloat g => f ← float_of_int x; Ok (NFloat (f + g)%float)
  | NFloat f, NInt y => g ← float_of_int y; Ok (NFloat (f + g)%float)
  | NFloat f, NFloat g => Ok (NFloat (f + g)%float)
  end.

Definition num_mul (a b : num) : result num :=
  match a, b with
  | NInt x, NInt y => Ok (NInt (x * y))
  | NInt x, NFloat g => f ← float_of_int x; Ok (NFloat (f * g)%float)
  | NFloat f, NInt y => g ← float_of_int y; Ok (NFloat (f * g)%float)
  | NFloat f, NFloat g => Ok (NFloat (f * g)%float)
  end.

(** True division of two integers is correctly rounded.  Operands below
    2^53 are exact floats and are divided as such (CPython's fast path);
    larger ones go through an exact quotient, and a quotient beyond the
    finite range raises [OverflowError]. *)
Definition int_truediv (a b : Z) : result float :=
  if b =? 0 then Raise ZeroDivisionError
  else if (Z.abs a <? 2 ^ 53) && (Z.abs b <? 2 ^ 53)
  then Ok (Z_to_float a / Z_to_float b)%float
  else
    let sf z :=
      match z with
      | Z0 => S754_zero false
      | Zpos p => S754_finite false p 0
      | Zneg p => S754_finite true p 0
      end in
    match SFdiv prec emax (sf a) (sf b) with
    | S754_infinity _ => Raise OverflowError
    | q => Ok (SF2Prim q)
    end.

Definition float_truediv (f g : float) : result float :=
  if PrimFloat.eqb g 0 then Raise ZeroDivisionError else Ok (f / g)%float.

Definition num_truediv (a b : num) : result num :=
  match a, b with
  | NInt x, NInt y => q ← int_truediv x y; Ok (NFloat q)
  | NInt x, NFloat g =>
      f ← float_of_int x;
      q ← float_truediv f g; Ok (NFloat q)
  | NFloat f, NInt y =>
      g ← float_of_int y;
      q ← float_truediv f g; Ok (NFloat q)
  | NFloat f, NFloat g => q ← float_truediv f g; Ok (NFloat q)
  end.

Fixpoint str_repeat (s : string) (n : nat) : string :=
  match n with
  | O => ""
  | S n' => s +:+ str_repeat s n'
  end.

(** [a + b]: numbers add, strings concatenate. *)
Definition py_add (a b : pyval) : result pyval :=
  match as_num a, as_num b with
  | Some x, Some y => n ← num_add x y; Ok (of_num n)
  | _, _ =>
      match a, b with
      | VStr s, VStr t => Ok (VStr (s +:+ t))
      | _, _ => Raise TypeError
      end
  end.

(** [a * b]: numbers multiply; a string times an [int] (or [bool]) repeats
    the string; a string times a float is a [TypeError]. *)
Definition py_mul (a b : pyval) : result pyval :=
  match as_num a, as_num b with
  | Some x, Some y => n ← num_mul x y; Ok (of_num n)
  | None, Some (NInt k) =>
      match a with
      | VStr s => Ok (VStr (str_repeat s (Z.to_nat k)))
      | _ => Raise TypeError
      end
  | Some (NInt k), None =>
      match b with
      | VStr s => Ok (VStr (str_repeat s (Z.to_nat k)))
      | _ => Raise TypeError
      end
  | _, _ => Raise TypeError
  end.

(** [a / b]. *)
Definition py_truediv (a b : pyval) : result pyval :=
  match as_num a, as_num b with
  | Some x, Some y => n ← num_truediv x y; Ok (of_num n)
  | _, _ => Raise TypeError
  end.

(** [sum(l)]: a left fold of [+] from the integer 0.  (Recent CPython
    versions carry a compensation term while summing floats; the statements
    below depend on the value of a sum only for lists of integers, where
    the sum is exact.) *)
Definition py_sum (l : list pyval) : result pyval :=
  foldl (fun acc x => a ← acc; py_add a x) (Ok (VInt 0)) l.

(** [max(l)], [min(l)]: the first element replaced, left to right, by any
    later element that compares greater (smaller); [ValueError] on an empty
    list. *)
Fixpoint py_max_from (m : pyval) (l : list pyval) : result pyval :=
  match l with
  | [] => Ok m
  | x :: l' =>
      py_gt x m ≫= λ c : bool, py_max_from (if c then x else m) l'
  end.

Fixpoint py_min_from (m : pyval) (l : list pyval) : result pyval :=
  match l with
  | [] => Ok m
  | x :: l' =>
      py_lt x m ≫= λ c : bool, py_min_from (if c then x else m) l'
  end.

Definition py_max (l : list pyval) : result pyval :=
  match l with
  | [] => Raise ValueError
  | x :: l' => py_max_from x l'
  end.

Definition py_min (l : list pyval) : result pyval :=
  match l with
  | [] => Raise ValueError
  | x :: l' => py_min_from x l'
  end.

(* ===================================================================== *)
(** ** Dictionaries, the object store and the clock *)
(* ===================================================================== *)

(** The contents of a record: a dictionary with string keys. *)
Abbreviation dict := (gmap string pyval).

(** [k in d] *)
Definition dict_contains (d : dict) (k : string) : bool :=
  bool_decide (is_Some (d !! k)).

(** [d[k]]: [KeyError] when the key is absent. *)
Definition dict_getitem (d : dict) (k : string) : result pyval :=
  match d !! k with
  | Some v => Ok v
  | None => Raise KeyError
  end.

(** [d.get(k, dflt)] *)
Definition dict_get (d : dict) (k : string) (dflt : pyval) : pyval :=
  default dflt (d !! k).

(** [all(field in data for field in required_fields)] *)
Definition has_all (required_fields : list string) (data : dict) : bool :=
  forallb (dict_contains data) required_fields.

(** [lo <= x <= hi]: a chained comparison; the second test is evaluated
    only when the first one holds. *)
Definition py_between (lo x hi : pyval) : result bool :=
  py_le lo x ≫= λ c : bool, if c then py_le x hi else Ok false.

(** [x in l] for a list of scalars. *)
Definition py_in (x : pyval) (l : list pyval) : bool :=
  existsb (λ e, py_eq e x) l.

(** Dictionary objects live in a store and are referred to by their
    address; the wall clock is part of the world the code runs in.
    [clock] is the text [datetime.now().isoformat()] yields when the call
    is made. *)
Definition loc := nat.

Record world : Type := World {
  heap : list (gmap string pyval);
  clock : string
}.

(** Computations that read and update the world and may raise. *)
Definition M (A : Type) : Type := world → result A * world.

Global Instance M_ret : MRet M := λ A a w, (Ok a, w).
Global Instance M_bind : MBind M := λ A B k m w,
  match m w with
  | (Ok a, w') => k a w'
  | (Raise e, w') => (Raise e, w')
  end.

(** A pure evaluation inside a computation. *)
Definition lift {A : Type} (r : result A) : M A := λ w, (r, w).

(** [datetime.now().isoformat()] *)
Definition now_isoformat : M string := λ w, (Ok (clock w), w).

(** [data.copy()]: a new object with the same items. *)
Definition obj_copy (data : loc) : M loc := λ w,
  match heap w !! data with
  | Some d => (Ok (length (heap w)), World (heap w ++ [d]) (clock w))
  | None => (Raise AttributeError, w)
  end.

(** [obj[k] = v] *)
Definition obj_setitem (obj : loc) (k : string) (v : pyval) : M unit := λ w,
  match heap w !! obj with
  | Some d => (Ok (), World (<[obj := <[k := v]> d]> (heap w)) (clock w))
  | None => (Raise AttributeError, w)
  end.

(** [obj.get(k, dflt)] *)
Definition obj_get (obj : loc) (k : string) (dflt : pyval) : M pyval := λ w,
  match heap w !! obj with
  | Some d => (Ok (dict_get d k dflt), w)
  | None => (Raise AttributeError, w)
  end.

(** The dictionary an address refers to. *)
Definition deref (w : world) (l : loc) : option dict := heap w !! l.

(* ===================================================================== *)
(** ** Validators *)
(* ===================================================================== *)

(** The validators only read their argument; they are functions of the
    record's contents. *)

Definition validate_user_event (data : dict) : result bool :=
  let required_fields := ["user_id"; "event_type"; "timestamp"] in
  Ok (has_all required_fields data).

Definition validate_sensor_data (data : dict) : result bool :=
  let required_fields :=
    ["sensor_id"; "temperature"; "humidity"; "pressure"; "timestamp"] in
  if negb (has_all required_fields data) then Ok false
  else
    (* Validate temperature range *)
    temperature ← dict_getitem data "temperature";
    py_between (VInt 0) temperature (VInt 50) ≫= λ ok_t : bool,
    if negb ok_t then Ok false
    else
      (* Validate humidity range *)
      humidity ← dict_getitem data "humidity";
      py_between (VInt 0) humidity (VInt 100) ≫= λ ok_h : bool,
      if negb ok_h then Ok false
      else Ok true.

Definition validate_transaction (data : dict) : result bool :=
  let required_fields :=
    ["transaction_id"; "user_id"; "amount"; "currency"; "timestamp"] in
  if negb (has_all required_fields data) then Ok false
  else
    (* Validate amount *)
    amount ← dict_getitem data "amount";
    py_le amount (VInt 0) ≫= λ nonpos : bool,
    if nonpos then Ok false
    else
      (* Validate currency *)
      let valid_currencies := [VStr "USD"; VStr "EUR"; VStr "GBP"] in
      currency ← dict_getitem data "currency";
      if negb (py_in currency valid_currencies) then Ok false
      else Ok true.

(* ===================================================================== *)
(** ** Enrichers *)
(* ===================================================================== *)

(** The enrichers take the address of the input record, build a copy in
    the store, write the derived fields into the copy and return its
    address. *)

Definition enrich_user_event (data : loc) : M loc :=
  enriched ← obj_copy data;
  now ← now_isoformat;
  obj_setitem enriched "processed_at" (VStr now);;
  obj_setitem enriched "data_source" (VStr "kafka_stream");;
  (* Add user segment based on user_id *)
  user_id ← obj_get data "user_id" (VInt 0);
  (lift (py_le user_id (VInt 100)) ≫= λ c1 : bool,
   if c1 then obj_setitem enriched "user_segment" (VStr "premium")
   else
     lift (py_le user_id (VInt 500)) ≫= λ c2 : bool,
     if c2 then obj_setitem enriched "user_segment" (VStr "regular")
     else obj_setitem enriched "user_segment" (VStr "new"));;
  mret enriched.

(** [a and b] and [a or b] on comparison results: the right operand is
    evaluated only when the left one does not decide. *)
Definition py_and (a : result bool) (b : result bool) : result bool :=
  a ≫= λ c : bool, if c then b else Ok false.
Definition py_or (a : result bool) (b : result bool) : result bool :=
  a ≫= λ c : bool, if c then Ok true else b.

Definition enrich_sensor_data (data : loc) : M loc :=
  enriched ← obj_copy data;
  now ← now_isoformat;
  obj_setitem enriched "processed_at" (VStr now);;
  obj_setitem enriched "data_source" (VStr "kafka_stream");;
  (* Calculate derived metrics *)
  temperature ← obj_get data "temperature" (VInt 0);
  humidity ← obj_get data "humidity" (VInt 0);
  (* Heat index calculation (simplified) *)
  (lift (py_and (py_gt temperature (VInt 27)) (py_gt humidity (VInt 40)))
     ≫= λ hot : bool,
   if hot then
     half ← lift (py_mul (VFloat 0.5) humidity);
     heat_index ← lift (py_add temperature half);
     obj_setitem enriched "heat_index" heat_index
   else obj_setitem enriched "heat_index" temperature);;
  (* Add alert flags *)
  temperature_alert ←
    lift (py_or (py_gt temperature (VInt 35)) (py_lt temperature (VInt 5)));
  obj_setitem enriched "temperature_alert" (VBool temperature_alert);;
  humidity_alert ←
    lift (py_or (py_gt humidity (VInt 90)) (py_lt humidity (VInt 10)));
  obj_setitem enriched "humidity_alert" (VBool humidity_alert);;
  mret enriched.

Definition enrich_transaction (data : loc) : M loc :=
  enriched ← obj_copy data;
  now ← now_isoformat;
  obj_setitem enriched "processed_at" (VStr now);;
  obj_setitem enriched "data_source" (VStr "kafka_stream");;
  amount ← obj_get data "amount" (VInt 0);
  (* Add transaction category *)
  (lift (py_lt amount (VInt 50)) ≫= λ c1 : bool,
   if c1 then obj_setitem enriched "transaction_category" (VStr "small")
   else
     lift (py_lt amount (VInt 200)) ≫= λ c2 : bool,
     if c2 then obj_setitem enriched "transaction_category" (VStr "medium")
     else obj_setitem enriched "transaction_category" (VStr "large"));;
  (* Add fraud risk score (simplified) *)
  (lift (py_gt amount (VInt 1000)) ≫= λ c1 : bool,
   if c1 then obj_setitem enriched "fraud_risk" (VStr "high")
   else
     lift (py_gt amount (VInt 500)) ≫= λ c2 : bool,
     if c2 then obj_setitem enriched "fraud_risk" (VStr "medium")
     else obj_setitem enriched "fraud_risk" (VStr "low"));;
  mret enriched.

(* ===================================================================== *)
(** ** Aggregators *)
(* ===================================================================== *)

(** The dictionaries an aggregator builds are keyed by field values.  They
    are kept as association lists in insertion order; keys are matched
    with [==], so [1], [1.0] and [True] are one key.  A NaN never matches a
    stored key: every NaN occurrence is taken to be an object of its
    own. *)
Definition table (V : Type) : Type := list (pyval * V).

Fixpoint table_find {V : Type} (t : table V) (k : pyval) : option V :=
  match t with
  | [] => None
  | (k', v) :: t' => if py_eq k' k then Some v else table_find t' k
  end.

(** [t.get(k, dflt)] *)
Definition table_get {V : Type} (t : table V) (k : pyval) (dflt : V) : V :=
  default dflt (table_find t k).

(** [t[k] = v]: an existing key keeps its place (and its key object). *)
Fixpoint table_set {V : Type} (t : table V) (k : pyval) (v : V) : table V :=
  match t with
  | [] => [(k, v)]
  | (k', v') :: t' =>
      if py_eq k' k then (k', v) :: t' else (k', v') :: table_set t' k v
  end.

(** [if k not in t: t[k] = []] followed by [t[k].append(x)] *)
Definition table_append {V : Type} (t : table (list V)) (k : pyval) (x : V)
  : table (list V) :=
  table_set t k (table_get t k [] ++ [x]).

(** What an aggregator returns: a dictionary whose values are scalars or
    dictionaries keyed by field values. *)
Inductive aggval : Type :=
| AVal (v : pyval)
| ATable (t : table pyval).

Abbreviation summary := (gmap string aggval).

Definition VLen {A : Type} (l : list A) : pyval := VInt (Z.of_nat (length l)).

(** The loop of [aggregate_user_events]: one pass over the events updating
    [event_types] and [user_activity]. *)
Definition user_events_step
    (acc : result (table pyval * table (list pyval))) (event : dict)
  : result (table pyval * table (list pyval)) :=
  acc ≫= λ '(event_types, user_activity),
  let event_type := dict_get event "event_type" (VStr "unknown") in
  let user_id := dict_get event "user_id" (VInt 0) in
  (* Count event types *)
  n ← py_add (table_get event_types event_type (VInt 0)) (VInt 1);
  let event_types := table_set event_types event_type n in
  (* Track user activity *)
  let user_activity := table_append user_activity user_id event_type in
  Ok (event_types, user_activity).

Definition aggregate_user_events (events : list dict) : result summary :=
  match events with
  | [] => Ok ∅
  | _ =>
      foldl user_events_step (Ok ([], [])) events
        ≫= λ '(event_types, user_activity),
      avg ← match user_activity with
            | [] => Ok (VInt 0)
            | _ => py_truediv (VLen events) (VLen user_activity)
            end;
      Ok (<["total_events" := AVal (VLen events)]>
          (<["event_type_counts" := ATable event_types]>
          (<["active_users" := AVal (VLen user_activity)]>
          (<["avg_events_per_user" := AVal avg]> ∅))))
  end.

Definition aggregate_sensor_data (sensor_readings : list dict)
  : result summary :=
  match sensor_readings with
  | [] => Ok ∅
  | _ =>
      let temperatures :=
        (λ r, dict_get r "temperature" (VInt 0)) <$> sensor_readings in
      let humidities :=
        (λ r, dict_get r "humidity" (VInt 0)) <$> sensor_readings in
      let pressures :=
        (λ r, dict_get r "pressure" (VInt 0)) <$> sensor_readings in
      sum_t ← py_sum temperatures;
      avg_temperature ← py_truediv sum_t (VLen temperatures);
      sum_h ← py_sum humidities;
      avg_humidity ← py_truediv sum_h (VLen humidities);
      sum_p ← py_sum pressures;
      avg_pressure ← py_truediv sum_p (VLen pressures);
      max_temperature ← py_max temperatures;
      min_temperature ← py_min temperatures;
      let alerts :=
        filter (λ r, py_truthy (dict_get r "temperature_alert" (VBool false))
                     = true) sensor_readings in
      Ok (<["total_readings" := AVal (VLen sensor_readings)]>
          (<["avg_temperature" := AVal avg_temperature]>
          (<["avg_humidity" := AVal avg_humidity]>
          (<["avg_pressure" := AVal avg_pressure]>
          (<["max_temperature" := AVal max_temperature]>
          (<["min_temperature" := AVal min_temperature]>
          (<["alerts" := AVal (VLen alerts)]> ∅)))))))
  end.

(** The loop of [aggregate_transactions]: per-currency totals and
    per-merchant counts. *)
Definition transactions_step
    (acc : result (table pyval * table pyval)) (transaction : dict)
  : result (table pyval * table pyval) :=
  acc ≫= λ '(currencies, merchants),
  let currency := dict_get transaction "currency" (VStr "unknown") in
  let merchant := dict_get transaction "merchant" (VStr "unknown") in
  total ← py_add (table_get currencies currency (VInt 0))
                 (dict_get transaction "amount" (VInt 0));
  let currencies := table_set currencies currency total in
  n ← py_add (table_get merchants merchant (VInt 0)) (VInt 1);
  let merchants := table_set merchants merchant n in
  Ok (currencies, merchants).

Definition aggregate_transactions (transactions : list dict)
  : result summary :=
  match transactions with
  | [] => Ok ∅
  | _ =>
      let amounts :=
        (λ t, dict_get t "amount" (VInt 0)) <$> transactions in
      foldl transactions_step (Ok ([], [])) transactions
        ≫= λ '(currencies, merchants),
      total_amount ← py_sum amounts;
      sum_a ← py_sum amounts;
      avg_amount ← py_truediv sum_a (VLen amounts);
      max_transaction ← py_max amounts;
      min_transaction ← py_min amounts;
      Ok (<["total_transactions" := AVal (VLen transactions)]>
          (<["total_amount" := AVal total_amount]>
          (<["avg_amount" := AVal avg_amount]>
          (<["currency_totals" := ATable currencies]>
          (<["merchant_counts" := ATable merchants]>
          (<["max_transaction" := AVal max_transaction]>
          (<["min_transaction" := AVal min_transaction]> ∅)))))))
  end.

(* ===================================================================== *)
(** ** The specification's vocabulary *)
(* ===================================================================== *)

(** The specification speaks of one [is_valid(record, kind)] and one
    [enrich(record, kind)]; the source has a function per kind. *)
Inductive kind : Set := UserEvent | SensorReading | Transaction.

Definition is_valid (k : kind) (record : dict) : result bool :=
  match k with
  | UserEvent => validate_user_event record
  | SensorReading => validate_sensor_data record
  | Transaction => validate_transaction record
  end.

Definition enrich (k : kind) (record : loc) : M loc :=
  match k with
  | UserEvent => enrich_user_event record
  | SensorReading => enrich_sensor_data record
  | Transaction => enrich_transaction record
  end.

(** The keys each validator requires, and the keys each enricher writes. *)
Definition required_fields (k : kind) : list string :=
  match k with
  | UserEvent => ["user_id"; "event_type"; "timestamp"]
  | SensorReading =>
      ["sensor_id"; "temperature"; "humidity"; "pressure"; "timestamp"]
  | Transaction =>
      ["transaction_id"; "user_id"; "amount"; "currency"; "timestamp"]
  end.

Definition derived_fields (k : kind) : list string :=
  "processed_at" :: "data_source" ::
  match k with
  | UserEvent => ["user_segment"]
  | SensorReading => ["heat_index"; "temperature_alert"; "humidity_alert"]
  | Transaction => ["transaction_category"; "fraud_risk"]
  end.

(** A comparison "holds" when it evaluates to [True]. *)
Definition holds (r : result bool) : bool :=
  match r with
  | Ok true => true
  | _ => false
  end.

Definition below (v : pyval) (c : Z) : bool := holds (py_lt v (VInt c)).
Definition above (v : pyval) (c : Z) : bool := holds (py_gt v (VInt c)).
Definition at_most (v : pyval) (c : Z) : bool := holds (py_le v (VInt c)).
Definition at_least (v : pyval) (c : Z) : bool := holds (py_le (VInt c) v).

(** [lo ≤ v ≤ hi] *)
Definition within (lo : Z) (v : pyval) (hi : Z) : Prop :=
  at_least v lo = true ∧ at_most v hi = true.

(** Spec, validator, SensorReading: the five keys are present, temperature
    lies in 0..50 and humidity in 0..100; nothing is asked of the value of
    pressure. *)
Definition sensor_reading_valid (r : dict) : Prop :=
  (∀ k, k ∈ required_fields SensorReading → is_Some (r !! k)) ∧
  ∃ t h, r !! "temperature" = Some t ∧ r !! "humidity" = Some h ∧
         within 0 t 50 ∧ within 0 h 100.

(** Spec, enricher, UserEvent: the segments, read top-down. *)
Definition user_segment_spec (user_id : pyval) : string :=
  if at_most user_id 100 then "premium"
  else if above user_id 100 && at_most user_id 500 then "regular"
  else "new".

(** Spec, enricher, Transaction: the buckets as the specification words
    them. *)
Definition transaction_category_spec (amount : pyval) : string :=
  if below amount 50 then "small"
  else if at_least amount 50 && below amount 200 then "medium"
  else "large".

Definition fraud_risk_spec (amount : pyval) : string :=
  if above amount 1000 then "high"
  else if above amount 500 && at_most amount 1000 then "medium"
  else "low".

(** Spec, enricher, SensorReading. *)
Definition heat_index_spec (temperature humidity : pyval) : result pyval :=
  if above temperature 27 && above humidity 40
  then half ← py_mul (VFloat 0.5) humidity; py_add temperature half
  else Ok temperature.

Definition temperature_alert_spec (temperature : pyval) : bool :=
  above temperature 35 || below temperature 5.

Definition humidity_alert_spec (humidity : pyval) : bool :=
  above humidity 90 || below humidity 10.

(** Spec, enricher contract: the new mapping is the input's items plus the
    derived fields.  The derived fields as functions of the record: *)
Definition stamped (now : string) (r : dict) : dict :=
  <["data_source" := VStr "kafka_stream"]> (<["processed_at" := VStr now]> r).

Definition user_segment (user_id : pyval) : result pyval :=
  py_le user_id (VInt 100) ≫= λ c1 : bool,
  if c1 then Ok (VStr "premium")
  else py_le user_id (VInt 500) ≫= λ c2 : bool,
       Ok (VStr (if c2 then "regular" else "new")).

Definition transaction_category (amount : pyval) : result pyval :=
  py_lt amount (VInt 50) ≫= λ c1 : bool,
  if c1 then Ok (VStr "small")
  else py_lt amount (VInt 200) ≫= λ c2 : bool,
       Ok (VStr (if c2 then "medium" else "large")).

Definition fraud_risk (amount : pyval) : result pyval :=
  py_gt amount (VInt 1000) ≫= λ c1 : bool,
  if c1 then Ok (VStr "high")
  else py_gt amount (VInt 500) ≫= λ c2 : bool,
       Ok (VStr (if c2 then "medium" else "low")).

Definition heat_index (temperature humidity : pyval) : result pyval :=
  py_and (py_gt temperature (VInt 27)) (py_gt humidity (VInt 40))
    ≫= λ hot : bool,
  if hot then half ← py_mul (VFloat 0.5) humidity; py_add temperature half
  else Ok temperature.

Definition enriched (k : kind) (now : string) (r : dict) : result dict :=
  match k with
  | UserEvent =>
      segment ← user_segment (dict_get r "user_id" (VInt 0));
      Ok (<["user_segment" := segment]> (stamped now r))
  | SensorReading =>
      let temperature := dict_get r "temperature" (VInt 0) in
      let humidity := dict_get r "humidity" (VInt 0) in
      hi ← heat_index temperature humidity;
      ta ← py_or (py_gt temperature (VInt 35)) (py_lt temperature (VInt 5));
      ha ← py_or (py_gt humidity (VInt 90)) (py_lt humidity (VInt 10));
      Ok (<["humidity_alert" := VBool ha]>
          (<["temperature_alert" := VBool ta]>
          (<["heat_index" := hi]> (stamped now r))))
  | Transaction =>
      let amount := dict_get r "amount" (VInt 0) in
      category ← transaction_category amount;
      risk ← fraud_risk amount;
      Ok (<["fraud_risk" := risk]>
          (<["transaction_category" := category]> (stamped now r)))
  end.

(** Spec, enricher: what each derived field of the output holds, as a
    function of the input record [r] and of the clock reading [now]. *)
Definition derived_values (k : kind) (now : string) (r r' : dict) : Prop :=
  r' !! "processed_at" = Some (VStr now) ∧
  r' !! "data_source" = Some (VStr "kafka_stream") ∧
  match k with
  | UserEvent =>
      r' !! "user_segment"
      = Some (VStr (user_segment_spec (dict_get r "user_id" (VInt 0))))
  | SensorReading =>
      let temperature := dict_get r "temperature" (VInt 0) in
      let humidity := dict_get r "humidity" (VInt 0) in
      (∃ hi, heat_index_spec temperature humidity = Ok hi ∧
             r' !! "heat_index" = Some hi) ∧
      r' !! "temperature_alert"
      = Some (VBool (temperature_alert_spec temperature)) ∧
      r' !! "humidity_alert" = Some (VBool (humidity_alert_spec humidity))
  | Transaction =>
      let amount := dict_get r "amount" (VInt 0) in
      r' !! "transaction_category"
      = Some (VStr (transaction_category_spec amount)) ∧
      r' !! "fraud_risk" = Some (VStr (fraud_risk_spec amount))
  end.

(** Each enricher, run on the address of a record [r], allocates exactly
    one object, leaves the rest of the store alone, and succeeds with the
    record [enriched] describes, or raises what [enriched] raises. *)
Definition refines (k : kind) : Prop :=
  ∀ w data r, deref w data = Some r →
    ∃ r', enrich k data w
          = (enriched k (clock w) r ≫= λ _, Ok (length (heap w)),
             World (heap w ++ [r']) (clock w))
          ∧ ∀ r'', enriched k (clock w) r = Ok r'' → r' = r''.

(** The fields whose values a validator compares, and the fields an
    enricher reads. *)
Definition compared_fields (k : kind) : list string :=
  match k with
  | UserEvent => []
  | SensorReading => ["temperature"; "humidity"]
  | Transaction => ["amount"]
  end.

Definition inspected_fields (k : kind) : list string :=
  match k with
  | UserEvent => ["user_id"]
  | SensorReading => ["temperature"; "humidity"]
  | Transaction => ["amount"]
  end.

(** When a validator raises: every required key is there and a comparison
    meets a value that is not a number.  The humidity of a reading is
    compared only after its temperature was found in range. *)
Definition validator_raises (k : kind) (r : dict) : Prop :=
  match k with
  | UserEvent => False
  | SensorReading =>
      (∀ f, f ∈ required_fields SensorReading → is_Some (r !! f)) ∧
      ∃ t h, r !! "temperature" = Some t ∧ r !! "humidity" = Some h ∧
             (¬ is_number t ∨ (within 0 t 50 ∧ ¬ is_number h))
  | Transaction =>
      (∀ f, f ∈ required_fields Transaction → is_Some (r !! f)) ∧
      ∃ a, r !! "amount" = Some a ∧ ¬ is_number a
  end.

(** Spec, aggregator, user events. *)
Definition event_type_of (event : dict) : pyval :=
  dict_get event "event_type" (VStr "unknown").
Definition user_id_of (event : dict) : pyval :=
  dict_get event "user_id" (VInt 0).

Definition is_int (v : pyval) : Prop := ∃ z, v = VInt z.
Definition is_str (v : pyval) : Prop := ∃ s, v = VStr s.

Definition int_of (v : pyval) : Z :=
  match v with
  | VInt z => z
  | _ => 0
  end.

(** The number of events whose event type equals [x]. *)
Definition occurrences (x : pyval) (events : list dict) : Z :=
  Z.of_nat (length (filter (λ e, py_eq (event_type_of e) x = true) events)).

(** The number of distinct user ids. *)
Definition distinct_users (events : list dict) : Z :=
  Z.of_nat
    (size (list_to_set (C := gset Z) (int_of ∘ user_id_of <$> events))).

Definition user_events_summary
    (total : Z) (counts : table pyval) (users : Z) (avg : pyval) : summary :=
  <["total_events" := AVal (VInt total)]>
  (<["event_type_counts" := ATable counts]>
  (<["active_users" := AVal (VInt users)]>
  (<["avg_events_per_user" := AVal avg]> ∅))).

(** The outcome of comparing a number with a constant, as one of "less",
    "equal", "greater" or "unordered" (a NaN); the four tests read it. *)
Definition against (a : pyval) (c : Z) : option comparison :=
  match as_num a with
  | Some x => num_compare x (NInt c)
  | None => None
  end.

(** Keys that are integers or strings: on these [==] is equality. *)
Definition plain (v : pyval) : Prop := is_int v ∨ is_str v.

Definition typed_events (events : list dict) : Prop :=
  ∀ e, e ∈ events → is_int (user_id_of e) ∧ is_str (event_type_of e).

(** What the loop of [aggregate_user_events] has built after a run of
    events. *)
Record counted (events : list dict)
    (event_types : table pyval) (user_activity : table (list pyval)) : Prop := {
  counted_plain : Forall is_str event_types.*1;
  counted_nodup : NoDup event_types.*1;
  counted_from : ∀ k, k ∈ event_types.*1 →
                      ∃ e, e ∈ events ∧ event_type_of e = k;
  counted_find : ∀ x, plain x →
    table_find event_types x
    = if occurrences x events =? 0 then None
      else Some (VInt (occurrences x events));
  counted_users : ∃ ids : list Z,
    user_activity.*1 = VInt <$> ids ∧ NoDup ids ∧
    ∀ z, z ∈ ids ↔ z ∈ (int_of ∘ user_id_of <$> events)
}.

(* ===================================================================== *)
(** ** Sample records *)
(* ===================================================================== *)

Definition sample_reading (temperature humidity : pyval) : dict :=
  list_to_map
    [("sensor_id", VStr "sensor_001"); ("temperature", temperature);
     ("humidity", humidity); ("pressure", VInt 1013);
     ("timestamp", VStr "2024-01-01T00:00:00")].

Definition sample_transaction (amount : pyval) : dict :=
  list_to_map
    [("transaction_id", VStr "txn_000001"); ("user_id", VInt 7);
     ("amount", amount); ("currency", VStr "USD");
     ("timestamp", VStr "2024-01-01T00:00:00")].

Definition sample_event (user_id : pyval) (event_type : string) : dict :=
  list_to_map
    [("user_id", user_id); ("event_type", VStr event_type);
     ("timestamp", VStr "2024-01-01T00:00:00")].

(** A user event that already carries a [data_source] field. *)
Definition tagged_event : dict :=
  <["data_source" := VStr "batch_import"]> (sample_event (VInt 1) "login").

(** A world holding one record, at a given clock reading. *)
Definition world_of (r : dict) (now : string) : world := World [r] now.

Definition sample_events : list dict :=
  [sample_event (VInt 1) "a"; sample_event (VInt 1) "a";
   sample_event (VInt 2) "b"].

(* ===================================================================== *)
(** ** Vocabulary of the further properties *)
(* ===================================================================== *)

(** The currencies [validate_transaction] accepts, and what it accepts. *)
Definition accepted_currencies : list pyval :=
  [VStr "USD"; VStr "EUR"; VStr "GBP"].

Definition transaction_valid (r : dict) : Prop :=
  (∀ k, k ∈ required_fields Transaction → is_Some (r !! k)) ∧
  ∃ a c, r !! "amount" = Some a ∧ r !! "currency" = Some c ∧
         is_number a ∧ at_most a 0 = false ∧ c ∈ accepted_currencies.

(** The sum of the counts a table holds, and what a count looks like. *)
Definition table_total (t : table pyval) : Z :=
  foldr (λ kv acc, int_of kv.2 + acc) 0 t.

Definition positive_count (kv : pyval * pyval) : Prop :=
  ∃ c, kv.2 = VInt c ∧ 1 ≤ c.

Definition merchant_of (t : dict) : pyval :=
  dict_get t "merchant" (VStr "unknown").
Definition currency_of (t : dict) : pyval :=
  dict_get t "currency" (VStr "unknown").
Definition amount_of (t : dict) : pyval := dict_get t "amount" (VInt 0).

(** The transactions of one merchant, and of one currency, in list
    order. *)
Definition with_merchant (x : pyval) (ts : list dict) : list dict :=
  filter (λ t, py_eq (merchant_of t) x = true) ts.
Definition with_currency (x : pyval) (ts : list dict) : list dict :=
  filter (λ t, py_eq (currency_of t) x = true) ts.

(** Adding up values one after the other, from the integer 0. *)
Definition running_total (l : list pyval) : result pyval :=
  foldl (λ acc x, acc ≫= λ a, py_add a x) (Ok (VInt 0)) l.

(** What the loop of [aggregate_transactions] has built after a run of
    transactions. *)
Record grouped (ts : list dict) (currencies merchants : table pyval)
  : Prop := {
  grouped_counts : Forall positive_count merchants;
  grouped_total : table_total merchants = Z.of_nat (length ts);
  grouped_merchant : ∀ s,
    table_find merchants (VStr s)
    = match with_merchant (VStr s) ts with
      | [] => None
      | l => Some (VLen l)
      end;
  grouped_currency : ∀ s,
    match with_currency (VStr s) ts with
    | [] => table_find currencies (VStr s) = None
    | l => ∃ v, table_find currencies (VStr s) = Some v ∧
                running_total (amount_of <$> l) = Ok v
    end
}.

Definition transactions_summary (ts : list dict)
    (total avg : pyval) (currencies merchants : table pyval)
    (hi lo : pyval) : summary :=
  <["total_transactions" := AVal (VLen ts)]>
  (<["total_amount" := AVal total]>
  (<["avg_amount" := AVal avg]>
  (<["currency_totals" := ATable currencies]>
  (<["merchant_counts" := ATable merchants]>
  (<["max_transaction" := AVal hi]>
  (<["min_transaction" := AVal lo]> ∅)))))).

Definition sample_transactions : list dict :=
  [<["merchant" := VStr "merchant_3"]> (sample_transaction (VFloat 12.5));
   sample_transaction (VInt 40);
   <["currency" := VStr "EUR"]> (sample_transaction (VFloat 7.25))].

Definition int_amounts (ts : list dict) : Prop :=
  ∀ t, t ∈ ts → is_int (amount_of t).

(** The integer amounts of a list of transactions and their sum. *)
Definition amounts_Z (ts : list dict) : list Z := int_of ∘ amount_of <$> ts.
Definition sum_Z (l : list Z) : Z := foldr Z.add 0 l.

Definition temperature_of (r : dict) : pyval :=
  dict_get r "temperature" (VInt 0).

(** A reading counts as an alert when its [temperature_alert] field is
    present and true. *)
Definition flagged (r : dict) : bool :=
  py_truthy (dict_get r "temperature_alert" (VBool false)).

(** [r'] is what [enrich_sensor_data] returned for the reading [raw], in
    some state of the store at some time. *)
Definition enriched_from (raw r' : dict) : Prop :=
  ∃ w data l w',
    deref w data = Some raw ∧
    enrich_sensor_data data w = (Ok l, w') ∧ deref w' l = Some r'.

Definition count_where {A : Type} (P : A → bool) (l : list A) : Z :=
  Z.of_nat (length (filter (λ x, P x = true) l)).

Definition int_valued (kv : pyval * pyval) : Prop := is_int kv.2.

Definition sample_int_transactions : list dict :=
  [sample_transaction (VInt 40); delete "amount" (sample_transaction (VInt 1))].

Definition sensor_summary (readings : list dict)
    (avg_t avg_h avg_p hi lo : pyval) (alerts : Z) : summary :=
  <["total_readings" := AVal (VLen readings)]>
  (<["avg_temperature" := AVal avg_t]>
  (<["avg_humidity" := AVal avg_h]>
  (<["avg_pressure" := AVal avg_p]>
  (<["max_temperature" := AVal hi]>
  (<["min_temperature" := AVal lo]>
  (<["alerts" := AVal (VInt alerts)]> ∅)))))).

Definition sample_readings : list dict :=
  [sample_reading (VInt 36) (VInt 50); sample_reading (VInt 20) (VInt 50)].

Definition sample_flagged_readings : list dict :=
  [<["temperature_alert" := VBool true]> (sample_reading (VInt 36) (VInt 50));
   sample_reading (VInt 20) (VInt 50)].

(** What [enrich_sensor_data] returns for a reading held alone in the
    store. *)
Definition enrich_sample (raw : dict) : dict :=
  default ∅
    (deref (enrich_sensor_data 0%nat (world_of raw "2024-01-01T00:00:01")).2
           1%nat).

Definition sample_transactions_summary : summary :=
  transactions_summary sample_transactions (VFloat 59.75)
    (VFloat (59.75 / 3))
    [(VStr "USD", VFloat 52.5); (VStr "EUR", VFloat 7.25)]
    [(VStr "merchant_3", VInt 1); (VStr "unknown", VInt 2)]
    (VInt 40) (VFloat 7.25).

(* ===================================================================== *)
(** ** Validators and aggregators run against the store *)
(* ===================================================================== *)

(** The validators and aggregators once more, as the code runs: the
    argument is the address of a record (a list of addresses), and every
    look at a record goes through the store, in a world that also holds
    the clock.  The dictionaries an aggregator builds are its own; they
    are kept as values. *)

(** [k in obj] *)
Definition obj_contains (obj : loc) (k : string) : M bool := λ w,
  match heap w !! obj with
  | Some d => (Ok (dict_contains d k), w)
  | None => (Raise AttributeError, w)
  end.

(** [obj[k]] *)
Definition obj_getitem (obj : loc) (k : string) : M pyval := λ w,
  match heap w !! obj with
  | Some d => (dict_getitem d k, w)
  | None => (Raise AttributeError, w)
  end.

(** [all(field in obj for field in fields)] *)
Fixpoint obj_has_all (fields : list string) (obj : loc) : M bool :=
  match fields with
  | [] => mret true
  | field :: fields' =>
      obj_contains obj field ≫= λ c : bool,
      if c then obj_has_all fields' obj else mret false
  end.

(** [[f(x) for x in l]] *)
Fixpoint for_each {A B : Type} (f : A → M B) (l : list A) : M (list B) :=
  match l with
  | [] => mret []
  | x :: l' => y ← f x; ys ← for_each f l'; mret (y :: ys)
  end.

(** [[x for x in l if p(x)]] *)
Fixpoint keep_if {A : Type} (p : A → M bool) (l : list A) : M (list A) :=
  match l with
  | [] => mret []
  | x :: l' =>
      p x ≫= λ c : bool,
      xs ← keep_if p l'; mret (if c then x :: xs else xs)
  end.

(** [for x in l: body], the loop's variables being the state [s]. *)
Fixpoint for_loop {S A : Type} (body : S → A → M S) (s : S) (l : list A)
  : M S :=
  match l with
  | [] => mret s
  | x :: l' => s' ← body s x; for_loop body s' l'
  end.

Module Stored.

Definition validate_user_event (data : loc) : M bool :=
  let required_fields := ["user_id"; "event_type"; "timestamp"] in
  obj_has_all required_fields data.

Definition validate_sensor_data (data : loc) : M bool :=
  let required_fields :=
    ["sensor_id"; "temperature"; "humidity"; "pressure"; "timestamp"] in
  obj_has_all required_fields data ≫= λ present : bool,
  if negb present then mret false
  else
    (* Validate temperature range *)
    temperature ← obj_getitem data "temperature";
    lift (py_between (VInt 0) temperature (VInt 50)) ≫= λ ok_t : bool,
    if negb ok_t then mret false
    else
      (* Validate humidity range *)
      humidity ← obj_getitem data "humidity";
      lift (py_between (VInt 0) humidity (VInt 100)) ≫= λ ok_h : bool,
      if negb ok_h then mret false
      else mret true.

Definition validate_transaction (data : loc) : M bool :=
  let required_fields :=
    ["transaction_id"; "user_id"; "amount"; "currency"; "timestamp"] in
  obj_has_all required_fields data ≫= λ present : bool,
  if negb present then mret false
  else
    (* Validate amount *)
    amount ← obj_getitem data "amount";
    lift (py_le amount (VInt 0)) ≫= λ nonpos : bool,
    if nonpos then mret false
    else
      (* Validate currency *)
      let valid_currencies := [VStr "USD"; VStr "EUR"; VStr "GBP"] in
      currency ← obj_getitem data "currency";
      if negb (py_in currency valid_currencies) then mret false
      else mret true.

Definition is_valid (k : kind) (record : loc) : M bool :=
  match k with
  | UserEvent => validate_user_event record
  | SensorReading => validate_sensor_data record
  | Transaction => validate_transaction record
  end.

Definition aggregate_user_events (events : list loc) : M summary :=
  match events with
  | [] => mret ∅
  | _ =>
      for_loop
        (λ '(event_types, user_activity) event,
           event_type ← obj_get event "event_type" (VStr "unknown");
           user_id ← obj_get event "user_id" (VInt 0);
           (* Count event types *)
           n ← lift (py_add (table_get event_types event_type (VInt 0))
                            (VInt 1));
           let event_types := table_set event_types event_type n in
           (* Track user activity *)
           let user_activity :=
             table_append user_activity user_id event_type in
           mret (event_types, user_activity))
        (([] : table pyval), ([] : table (list pyval))) events
        ≫= λ '(event_types, user_activity),
      avg ← lift match user_activity with
                 | [] => Ok (VInt 0)
                 | _ => py_truediv (VLen events) (VLen user_activity)
                 end;
      mret (<["total_events" := AVal (VLen events)]>
            (<["event_type_counts" := ATable event_types]>
            (<["active_users" := AVal (VLen user_activity)]>
            (<["avg_events_per_user" := AVal avg]> ∅))))
  end.

Definition aggregate_sensor_data (sensor_readings : list loc) : M summary :=
  match sensor_readings with
  | [] => mret ∅
  | _ =>
      temperatures ←
        for_each (λ r, obj_get r "temperature" (VInt 0)) sensor_readings;
      humidities ←
        for_each (λ r, obj_get r "humidity" (VInt 0)) sensor_readings;
      pressures ←
        for_each (λ r, obj_get r "pressure" (VInt 0)) sensor_readings;
      sum_t ← lift (py_sum temperatures);
      avg_temperature ← lift (py_truediv sum_t (VLen temperatures));
      sum_h ← lift (py_sum humidities);
      avg_humidity ← lift (py_truediv sum_h (VLen humidities));
      sum_p ← lift (py_sum pressures);
      avg_pressure ← lift (py_truediv sum_p (VLen pressures));
      max_temperature ← lift (py_max temperatures);
      min_temperature ← lift (py_min temperatures);
      alerts ←
        keep_if (λ r, flag ← obj_get r "temperature_alert" (VBool false);
                      mret (py_truthy flag)) sensor_readings;
      mret (<["total_readings" := AVal (VLen sensor_readings)]>
            (<["avg_temperature" := AVal avg_temperature]>
            (<["avg_humidity" := AVal avg_humidity]>
            (<["avg_pressure" := AVal avg_pressure]>
            (<["max_temperature" := AVal max_temperature]>
            (<["min_temperature" := AVal min_temperature]>
            (<["alerts" := AVal (VLen alerts)]> ∅)))))))
  end.

Definition aggregate_transactions (transactions : list loc) : M summary :=
  match transactions with
  | [] => mret ∅
  | _ =>
      amounts ← for_each (λ t, obj_get t "amount" (VInt 0)) transactions;
      for_loop
        (λ '(currencies, merchants) transaction,
           currency ← obj_get transaction "currency" (VStr "unknown");
           merchant ← obj_get transaction "merchant" (VStr "unknown");
           amount ← obj_get transaction "amount" (VInt 0);
           total ← lift (py_add (table_get currencies currency (VInt 0))
                                amount);
           let currencies := table_set currencies currency total in
           n ← lift (py_add (table_get merchants merchant (VInt 0)) (VInt 1));
           let merchants := table_set merchants merchant n in
           mret (currencies, merchants))
        (([] : table pyval), ([] : table pyval)) transactions
        ≫= λ '(currencies, merchants),
      total_amount ← lift (py_sum amounts);
      sum_a ← lift (py_sum amounts);
      avg_amount ← lift (py_truediv sum_a (VLen amounts));
      max_transaction ← lift (py_max amounts);
      min_transaction ← lift (py_min amounts);
      mret (<["total_transactions" := AVal (VLen transactions)]>
            (<["total_amount" := AVal total_amount]>
            (<["avg_amount" := AVal avg_amount]>
            (<["currency_totals" := ATable currencies]>
            (<["merchant_counts" := ATable merchants]>
            (<["max_transaction" := AVal max_transaction]>
            (<["min_transaction" := AVal min_transaction]> ∅)))))))
  end.

End Stored.



(* ===================================================================== *)
(** ** Running computations in the store *)
(* ===================================================================== *)

Section Store.
Context {A B : Type}.
Implicit Types (m : M A) (k : A → M B) (w : world).


Lemma bind_raise m k w e w' :
  m w = (Raise e, w') → (m ≫= k) w = (Raise e, w').
Proof. intros H. unfold mbind, M_bind. by rewrite H. Qed.
End Store.

Lemma obj_copy_run w data r :
  deref w data = Some r →
  obj_copy data w = (Ok (length (heap w)), World (heap w ++ [r]) (clock w)).
Proof. unfold deref, obj_copy. by intros ->. Qed.

Lemma obj_setitem_last h c r k v :
  obj_setitem (length h) k v (World (h ++ [r]) c)
  = (Ok (), World (h ++ [<[k := v]> r]) c).
Proof.
  unfold obj_setitem. cbn [heap clock].
  rewrite lookup_app_r by lia. rewrite Nat.sub_diag. cbn [lookup list_lookup].
  f_equal. f_equal.
  rewrite insert_app_r_alt by lia. by rewrite Nat.sub_diag.
Qed.

Lemma obj_get_old h c r0 data r k dflt :
  h !! data = Some r →
  obj_get data k dflt (World (h ++ [r0]) c)
  = (Ok (dict_get r k dflt), World (h ++ [r0]) c).
Proof.
  intros H. unfold obj_get. cbn [heap].
  by rewrite (lookup_app_l_Some _ _ _ _ H).
Qed.

Ltac run_store Hr :=
  unfold mbind, M_bind, result_bind, mret, M_ret, lift, now_isoformat;
  try rewrite (obj_copy_run _ _ _ Hr); cbv beta iota; cbn [clock heap];
  repeat first
    [ rewrite obj_setitem_last; cbv beta iota
    | rewrite (obj_get_old _ _ _ _ _ _ _ Hr); cbv beta iota ].

Ltac case_result :=
  match goal with
  | |- context [if ?b then _ else _] => is_var b; destruct b
  | |- context [match ?r with Ok _ => _ | Raise _ => _ end] =>
      lazymatch r with
      | context [if _ then _ else _] => fail
      | context [match _ with Ok _ => _ | Raise _ => _ end] => fail
      | _ => destruct r as [?|?]
      end
  end.

Ltac done_enricher :=
  eexists; split; [reflexivity|];
  first [intros ? [= <-]; reflexivity | intros ? [=] ].

Ltac run_enricher Hr :=
  run_store Hr; repeat (case_result; run_store Hr); done_enricher.

Lemma enrich_user_event_refines : refines UserEvent.
Proof.
  intros w data r Hr. cbn [enrich enriched].
  unfold enrich_user_event, user_segment. run_enricher Hr.
Qed.

Lemma enrich_sensor_data_refines : refines SensorReading.
Proof.
  intros w data r Hr. cbn [enrich enriched].
  unfold enrich_sensor_data, heat_index. cbv zeta. run_enricher Hr.
Qed.

Lemma enrich_transaction_refines : refines Transaction.
Proof.
  intros w data r Hr. cbn [enrich enriched].
  unfold enrich_transaction, transaction_category, fraud_risk. cbv zeta.
  run_enricher Hr.
Qed.

Lemma enrich_refines k : refines k.
Proof.
  destruct k;
    [ apply enrich_user_event_refines
    | apply enrich_sensor_data_refines
    | apply enrich_transaction_refines ].
Qed.

(* ===================================================================== *)
(** ** Comparisons against integer constants *)
(* ===================================================================== *)

Lemma holds_true (r : result bool) : holds r = true ↔ r = Ok true.
Proof. destruct r as [[|]|]; cbn; split; congruence. Qed.

Lemma holds_returns (r : result bool) : returns r → r = Ok (holds r).
Proof. intros [[|] ->]; reflexivity. Qed.

Lemma py_compare_num a b x y :
  as_num a = Some x → as_num b = Some y →
  py_compare a b = Ok (num_compare x y).
Proof. unfold py_compare. by intros -> ->. Qed.

Lemma py_compare_number a b :
  is_number a → is_number b → returns (py_compare a b).
Proof. intros [x Hx] [y Hy]. eexists. by apply py_compare_num. Qed.

(** A comparison with an integer constant raises exactly on a value that is
    not a number. *)
Lemma py_compare_const_raise a c e :
  py_compare a (VInt c) = Raise e → e = TypeError ∧ ¬ is_number a.
Proof.
  unfold py_compare. destruct a; cbn; intros [=]; subst;
    (split; [reflexivity | by intros [? [=]] ]).
Qed.

Section Constants.
Variables (a : pyval) (c : Z).
Hypothesis Ha : is_number a.

Lemma py_lt_number : py_lt a (VInt c) = Ok (below a c).
Proof.
  unfold below. apply holds_returns. unfold py_lt.
  destruct (py_compare_number a (VInt c) Ha) as [o ->]; [by eexists|].
  by eexists.
Qed.

Lemma py_gt_number : py_gt a (VInt c) = Ok (above a c).
Proof.
  unfold above. apply holds_returns. unfold py_gt.
  destruct (py_compare_number a (VInt c) Ha) as [o ->]; [by eexists|].
  by eexists.
Qed.

Lemma py_le_number : py_le a (VInt c) = Ok (at_most a c).
Proof.
  unfold at_most. apply holds_returns. unfold py_le.
  destruct (py_compare_number a (VInt c) Ha) as [o ->]; [by eexists|].
  by eexists.
Qed.

Lemma py_ge_number : py_le (VInt c) a = Ok (at_least a c).
Proof.
  unfold at_least. apply holds_returns. unfold py_le.
  destruct (py_compare_number (VInt c) a) as [o ->]; [by eexists|done|].
  by eexists.
Qed.
End Constants.

Lemma num_compare_flip x c :
  num_compare (NInt c) x = CompOpp <$> num_compare x (NInt c).
Proof.
  destruct x as [z|f]; cbn.
  - by rewrite Z.compare_antisym.
  - destruct (Zcompare_float c f) as [[]|]; reflexivity.
Qed.

Lemma tests_against a c :
  is_number a →
  below a c = is_lt (against a c) ∧
  above a c = is_gt (against a c) ∧
  at_most a c = is_le (against a c) ∧
  at_least a c
  = negb (is_lt (against a c)) && bool_decide (is_Some (against a c)).
Proof.
  intros [x Hx]. unfold below, above, at_most, at_least, against.
  unfold py_lt, py_gt, py_le.
  rewrite (py_compare_num a (VInt c) x (NInt c)) by done.
  rewrite (py_compare_num (VInt c) a (NInt c) x) by done.
  rewrite Hx, num_compare_flip.
  destruct (num_compare x (NInt c)) as [[]|]; cbn; done.
Qed.

(** Whether a number is ordered at all does not depend on the constant. *)
Lemma against_unordered a c c' :
  against a c = None → against a c' = None.
Proof.
  unfold against. destruct (as_num a) as [[z|f]|]; cbn; try done.
  unfold Zcompare_float. destruct (Prim2SF f); cbn; done.
Qed.

Lemma within_int lo z hi : within lo (VInt z) hi ↔ lo ≤ z ≤ hi.
Proof.
  unfold within, at_least, at_most, py_le. cbn.
  destruct (lo ?= z) eqn:H1, (z ?= hi) eqn:H2; cbn;
    rewrite ?Z.compare_eq_iff, ?Z.compare_lt_iff, ?Z.compare_gt_iff in *;
    split; intros; try lia; try (split; congruence); destruct_and?; congruence.
Qed.

Lemma py_between_true lo x hi :
  py_between (VInt lo) x (VInt hi) = Ok true ↔ within lo x hi.
Proof.
  unfold within, at_least, at_most, py_between. rewrite !holds_true.
  destruct (py_le (VInt lo) x) as [[|]|]; cbn; split; try tauto; try congruence.
Qed.

Lemma py_between_number lo x hi :
  is_number x → returns (py_between (VInt lo) x (VInt hi)).
Proof.
  intros Hx. unfold py_between. rewrite py_ge_number by done. cbn.
  destruct (at_least x lo); [|by eexists].
  rewrite py_le_number by done. by eexists.
Qed.

Lemma within_number lo v hi : within lo v hi → is_number v.
Proof.
  intros [H _]. unfold at_least in H. apply holds_true in H.
  destruct v; cbn in H; try done; by eexists.
Qed.

(* ===================================================================== *)
(** ** Validators *)
(* ===================================================================== *)

Lemma has_all_spec fs (r : dict) :
  has_all fs r = true ↔ ∀ k, k ∈ fs → is_Some (r !! k).
Proof.
  unfold has_all. rewrite forallb_forall. unfold dict_contains.
  split; intros H k Hk.
  - apply list_elem_of_In, H in Hk. by apply bool_decide_eq_true in Hk.
  - apply bool_decide_eq_true, H, list_elem_of_In, Hk.
Qed.

Lemma has_all_missing fs (r : dict) k :
  k ∈ fs → r !! k = None → has_all fs r = false.
Proof.
  intros Hk Hr. apply not_true_is_false. rewrite has_all_spec.
  intros H. destruct (H k Hk) as [v Hv]. congruence.
Qed.

Lemma dict_getitem_some (r : dict) k v :
  r !! k = Some v → dict_getitem r k = Ok v.
Proof. unfold dict_getitem. by intros ->. Qed.

Lemma validate_sensor_data_pressure (r : dict) p :
  is_Some (r !! "pressure") →
  validate_sensor_data (<["pressure" := p]> r) = validate_sensor_data r.
Proof.
  intros Hp. unfold validate_sensor_data, dict_getitem. cbv zeta.
  rewrite !lookup_insert_ne by done.
  replace (has_all _ (<["pressure" := p]> r)) with
    (has_all
       ["sensor_id"; "temperature"; "humidity"; "pressure"; "timestamp"] r);
    [done|].
  unfold has_all, dict_contains. cbn [forallb].
  rewrite lookup_insert_eq, !lookup_insert_ne by done.
  rewrite (bool_decide_eq_true_2 (is_Some (Some p))) by eauto.
  by rewrite (bool_decide_eq_true_2 _ Hp).
Qed.

Lemma validate_sensor_data_iff r :
  validate_sensor_data r = Ok true ↔ sensor_reading_valid r.
Proof.
  unfold validate_sensor_data, sensor_reading_valid. cbv zeta.
  destruct (has_all _ r) eqn:Hall; cbn [negb].
  - pose proof (proj1 (has_all_spec _ _) Hall) as Hk.
    destruct (Hk "temperature") as [t Ht]; [set_solver|].
    destruct (Hk "humidity") as [h Hh]; [set_solver|].
    rewrite (dict_getitem_some _ _ _ Ht), (dict_getitem_some _ _ _ Hh).
    cbn [mbind result_bind].
    split.
    + intros H. split; [exact Hk|]. exists t, h.
      rewrite <- !py_between_true.
      destruct (py_between (VInt 0) t (VInt 50)) as [[|]|]; try done.
      destruct (py_between (VInt 0) h (VInt 100)) as [[|]|]; done.
    + intros [_ (t' & h' & Ht' & Hh' & Wt & Wh)].
      assert (t' = t) as -> by congruence.
      assert (h' = h) as -> by congruence.
      apply py_between_true in Wt, Wh. by rewrite Wt, Wh.
  - split; [done|]. intros [Hk _].
    apply has_all_spec in Hk. cbn [required_fields] in Hk. congruence.
Qed.

(** C1: [validate_sensor_data] returns [True] exactly on the records that
    have the five required keys, a temperature within 0..50 and a humidity
    within 0..100.  Both bounds are inclusive (on integers [within] is the
    closed interval; the float 50.0 is within 0..50, the float nearest to
    50.1 is not), and the value of pressure is never compared: replacing it
    does not change the outcome. *)
Theorem validate_sensor_data_spec :
  (∀ r, validate_sensor_data r = Ok true ↔ sensor_reading_valid r) ∧
  (∀ lo z hi, within lo (VInt z) hi ↔ lo ≤ z ≤ hi) ∧
  within 0 (VFloat 50) 50 ∧
  ¬ within 0 (VFloat 0x1.90ccccccccccdp+5) 50 ∧
  (∀ r p, is_Some (r !! "pressure") →
          validate_sensor_data (<["pressure" := p]> r)
          = validate_sensor_data r).
Proof.
  split; [apply validate_sensor_data_iff|].
  split; [apply within_int|]. split; [|split].
  - split; vm_compute; reflexivity.
  - intros [_ H]. vm_compute in H. discriminate.
  - apply validate_sensor_data_pressure.
Qed.

(** The boundary readings of the specification's example. *)
Example validate_sensor_data_at_50 :
  validate_sensor_data (sample_reading (VInt 50) (VInt 40)) = Ok true.
Proof. vm_compute. reflexivity. Qed.

Example validate_sensor_data_at_50_1 :
  validate_sensor_data (sample_reading (VFloat 0x1.90ccccccccccdp+5) (VInt 40))
  = Ok false.
Proof. vm_compute. reflexivity. Qed.

Lemma validate_sensor_data_witness :
  validate_sensor_data (sample_reading (VInt 50) (VInt 100)) = Ok true.
Proof.
  apply (proj1 validate_sensor_data_spec). split.
  - intros k Hk. cbn [required_fields] in Hk.
    repeat (apply elem_of_cons in Hk as [->|Hk]); try (eexists; reflexivity).
    by apply elem_of_nil in Hk.
  - exists (VInt 50), (VInt 100).
    repeat split; reflexivity.
Defined.

Lemma py_compare_const_raise_l a c e :
  py_compare (VInt c) a = Raise e → e = TypeError ∧ ¬ is_number a.
Proof.
  unfold py_compare. destruct a; cbn; intros [=]; subst;
    (split; [reflexivity | by intros [? [=]] ]).
Qed.

Lemma py_le_const_raise a c e :
  py_le a (VInt c) = Raise e → e = TypeError ∧ ¬ is_number a.
Proof.
  unfold py_le. destruct (py_compare a (VInt c)) eqn:H; [done|].
  intros [= ->]. by apply py_compare_const_raise in H.
Qed.

Lemma py_le_const_raise_l a c e :
  py_le (VInt c) a = Raise e → e = TypeError ∧ ¬ is_number a.
Proof.
  unfold py_le. destruct (py_compare (VInt c) a) eqn:H; [done|].
  intros [= ->]. by apply py_compare_const_raise_l in H.
Qed.

Lemma py_between_raise lo x hi e :
  py_between (VInt lo) x (VInt hi) = Raise e → e = TypeError ∧ ¬ is_number x.
Proof.
  unfold py_between.
  destruct (py_le (VInt lo) x) as [[|]|e'] eqn:H; cbn [mbind result_bind].
  - apply py_le_const_raise.
  - done.
  - intros [= ->]. by apply py_le_const_raise_l in H.
Qed.

Lemma validate_sensor_data_raise r e :
  validate_sensor_data r = Raise e →
  e = TypeError ∧
  ∃ f v, f ∈ compared_fields SensorReading ∧ r !! f = Some v ∧ ¬ is_number v.
Proof.
  unfold validate_sensor_data, dict_getitem. cbv zeta.
  destruct (has_all _ r) eqn:Hall; cbn [negb]; [|done].
  pose proof (proj1 (has_all_spec _ _) Hall) as Hk.
  destruct (Hk "temperature") as [t Ht]; [set_solver|].
  destruct (Hk "humidity") as [h Hh]; [set_solver|].
  rewrite Ht, Hh. cbn [mbind result_bind].
  destruct (py_between (VInt 0) t (VInt 50)) as [[|]|e1] eqn:H1;
    cbn [mbind result_bind negb]; try done.
  - destruct (py_between (VInt 0) h (VInt 100)) as [[|]|e2] eqn:H2;
      cbn [mbind result_bind negb]; try done.
    intros [= ->]. apply py_between_raise in H2 as [-> H2].
    split; [done|]. exists "humidity", h. cbn. set_solver.
  - intros [= ->]. apply py_between_raise in H1 as [-> H1].
    split; [done|]. exists "temperature", t. cbn. set_solver.
Qed.

Lemma validate_transaction_raise r e :
  validate_transaction r = Raise e →
  e = TypeError ∧
  ∃ f v, f ∈ compared_fields Transaction ∧ r !! f = Some v ∧ ¬ is_number v.
Proof.
  unfold validate_transaction, dict_getitem. cbv zeta.
  destruct (has_all _ r) eqn:Hall; cbn [negb]; [|done].
  pose proof (proj1 (has_all_spec _ _) Hall) as Hk.
  destruct (Hk "amount") as [a Ha]; [set_solver|].
  destruct (Hk "currency") as [c Hc]; [set_solver|].
  rewrite Ha, Hc. cbn [mbind result_bind].
  destruct (py_le a (VInt 0)) as [[|]|e1] eqn:H1;
    cbn [mbind result_bind]; try done.
  - by destruct (negb _).
  - intros [= ->]. apply py_le_const_raise in H1 as [-> H1].
    split; [done|]. exists "amount", a. cbn. set_solver.
Qed.

Lemma is_valid_raise k r e :
  is_valid k r = Raise e →
  e = TypeError ∧
  ∃ f v, f ∈ compared_fields k ∧ r !! f = Some v ∧ ¬ is_number v.
Proof.
  destruct k; cbn [is_valid].
  - done.
  - apply validate_sensor_data_raise.
  - apply validate_transaction_raise.
Qed.

Lemma is_valid_missing k (r : dict) f :
  f ∈ required_fields k → r !! f = None → is_valid k r = Ok false.
Proof.
  intros Hf Hr. pose proof (has_all_missing _ r f Hf Hr) as H.
  destruct k; cbn [is_valid required_fields] in *;
    unfold validate_user_event, validate_sensor_data, validate_transaction;
    cbv zeta; by rewrite H.
Qed.

Lemma py_between_not_number lo x hi :
  ¬ is_number x → py_between (VInt lo) x (VInt hi) = Raise TypeError.
Proof.
  intros Hx. unfold py_between, py_le, py_compare.
  destruct (as_num x) eqn:E; [destruct Hx; by eexists|]. by destruct x.
Qed.

Lemma validate_sensor_data_raises r :
  validate_sensor_data r = Raise TypeError ↔ validator_raises SensorReading r.
Proof.
  unfold validate_sensor_data, dict_getitem; cbn [validator_raises]. cbv zeta.
  destruct (has_all _ r) eqn:Hall; cbn [negb].
  - pose proof (proj1 (has_all_spec _ _) Hall) as Hk.
    destruct (Hk "temperature") as [t Ht]; [set_solver|].
    destruct (Hk "humidity") as [h Hh]; [set_solver|].
    rewrite Ht, Hh. cbn [mbind result_bind].
    destruct (py_between (VInt 0) t (VInt 50)) as [[|]|e1] eqn:H1;
      cbn [mbind result_bind negb].
    + apply py_between_true in H1.
      destruct (py_between (VInt 0) h (VInt 100)) as [[|]|e2] eqn:H2;
        cbn [mbind result_bind negb].
      * split; [done|]. intros (_ & t' & h' & [= <-] & [= <-] & [Hn|[_ Hn]]).
        -- destruct Hn. by apply (within_number 0 t 50).
        -- by rewrite py_between_not_number in H2.
      * split; [done|]. intros (_ & t' & h' & [= <-] & [= <-] & [Hn|[_ Hn]]).
        -- destruct Hn. by apply (within_number 0 t 50).
        -- by rewrite py_between_not_number in H2.
      * apply py_between_raise in H2 as [-> H2]. split; [|done].
        intros _. split; [done|]. exists t, h. auto.
    + split; [done|]. intros (_ & t' & h' & [= <-] & [= <-] & [Hn|[Hw _]]).
      * by rewrite py_between_not_number in H1.
      * apply py_between_true in Hw. congruence.
    + apply py_between_raise in H1 as [-> H1]. split; [|done].
      intros _. split; [done|]. exists t, h. auto.
  - split; [done|]. intros [Hk _]. apply has_all_spec in Hk.
    cbn [required_fields] in Hk. congruence.
Qed.

Lemma validate_transaction_raises r :
  validate_transaction r = Raise TypeError ↔ validator_raises Transaction r.
Proof.
  unfold validate_transaction, dict_getitem; cbn [validator_raises]. cbv zeta.
  destruct (has_all _ r) eqn:Hall; cbn [negb].
  - pose proof (proj1 (has_all_spec _ _) Hall) as Hk.
    destruct (Hk "amount") as [a Ha]; [set_solver|].
    destruct (Hk "currency") as [c Hc]; [set_solver|].
    rewrite Ha, Hc. cbn [mbind result_bind].
    destruct (py_le a (VInt 0)) as [[|]|e1] eqn:H1; cbn [mbind result_bind].
    + split; [done|]. intros (_ & a' & [= <-] & Hn).
      unfold py_le, py_compare in H1.
      destruct (as_num a) eqn:E; [destruct Hn; by eexists|]. by destruct a.
    + split; [by destruct (negb _)|]. intros (_ & a' & [= <-] & Hn).
      unfold py_le, py_compare in H1.
      destruct (as_num a) eqn:E; [destruct Hn; by eexists|]. by destruct a.
    + apply py_le_const_raise in H1 as [-> H1]. split; [|done].
      intros _. split; [done|]. by exists a.
  - split; [done|]. intros [Hk _]. apply has_all_spec in Hk.
    cbn [required_fields] in Hk. congruence.
Qed.

Lemma is_valid_raises k r :
  is_valid k r = Raise TypeError ↔ validator_raises k r.
Proof.
  destruct k; cbn [is_valid].
  - done.
  - apply validate_sensor_data_raises.
  - apply validate_transaction_raises.
Qed.

(** C2, as amended: a record that lacks a required key is reported invalid
    ([False], no exception); a validator returns whenever the fields it
    compares are numbers; the only exception a validator can raise is the
    [TypeError] of comparing a field that is present but not a number; and
    it raises exactly on the records [validator_raises] describes: a
    sensor reading with all five keys whose temperature is not a number, or
    whose temperature lies in 0..50 and whose humidity is not a number (a
    temperature out of range returns [False] before the humidity is looked
    at); a transaction with all five keys whose amount is not a number; no
    user event. *)
Theorem validators_raise_only_on_non_numbers (k : kind) (r : dict) :
  (∀ f, f ∈ required_fields k → r !! f = None → is_valid k r = Ok false) ∧
  ((∀ f v, f ∈ compared_fields k → r !! f = Some v → is_number v) →
   returns (is_valid k r)) ∧
  (∀ e, is_valid k r = Raise e →
        e = TypeError ∧
        ∃ f v, f ∈ compared_fields k ∧ r !! f = Some v ∧ ¬ is_number v) ∧
  (is_valid k r = Raise TypeError ↔ validator_raises k r).
Proof.
  split; [|split; [|split]].
  - intros f. apply is_valid_missing.
  - intros Hnum. destruct (is_valid k r) as [b|e] eqn:H; [by eexists|].
    apply is_valid_raise in H as [_ (f & v & Hf & Hv & Hn)].
    destruct Hn. by apply (Hnum f).
  - apply is_valid_raise.
  - apply is_valid_raises.
Qed.

(** A sensor reading whose temperature is a string: all keys are present,
    and the range test raises. *)
Lemma string_temperature_raises :
  validate_sensor_data (sample_reading (VStr "hot") (VInt 40))
  = Raise TypeError.
Proof. vm_compute. reflexivity. Qed.

(** A reading out of range in temperature is rejected before its humidity,
    here a string, is compared. *)
Example out_of_range_before_type :
  validate_sensor_data (sample_reading (VInt 60) (VStr "wet")) = Ok false.
Proof. vm_compute. reflexivity. Qed.

Lemma validators_witness :
  is_valid Transaction (delete "currency" (sample_transaction (VInt 20)))
  = Ok false
  ∧ returns (is_valid SensorReading (sample_reading (VInt 20) (VFloat 55.5)))
  ∧ is_valid SensorReading (sample_reading (VInt 20) (VStr "wet"))
    = Raise TypeError.
Proof.
  split; [|split].
  - apply (proj1 (validators_raise_only_on_non_numbers Transaction _)
             "currency").
    + cbn. set_solver.
    + reflexivity.
  - apply (proj1 (proj2
             (validators_raise_only_on_non_numbers SensorReading _))).
    intros f v Hf. cbn in Hf.
    repeat (apply elem_of_cons in Hf as [->|Hf]);
      [| |by apply elem_of_nil in Hf]; vm_compute; intros [= <-]; by eexists.
  - apply (proj2 (proj2 (proj2
             (validators_raise_only_on_non_numbers SensorReading _)))).
    split.
    + intros f Hf. cbn [required_fields] in Hf.
      repeat (apply elem_of_cons in Hf as [->|Hf]);
        try (eexists; reflexivity).
      by apply elem_of_nil in Hf.
    + exists (VInt 20), (VStr "wet").
      split; [reflexivity|]. split; [reflexivity|]. right. split.
      * split; reflexivity.
      * by intros [? [=]].
Defined.

(* ===================================================================== *)
(** ** Enrichers: what a successful call leaves in the store *)
(* ===================================================================== *)

Lemma deref_new h c (r : dict) :
  deref (World (h ++ [r]) c) (length h) = Some r.
Proof.
  unfold deref. cbn [heap]. rewrite lookup_app_r by lia.
  by rewrite Nat.sub_diag.
Qed.

Lemma deref_old h c (r0 r : dict) l :
  h !! l = Some r → deref (World (h ++ [r0]) c) l = Some r.
Proof. intros H. unfold deref. cbn [heap]. by apply lookup_app_l_Some. Qed.

Lemma enrich_ok k w data r r' :
  deref w data = Some r → enriched k (clock w) r = Ok r' →
  enrich k data w
  = (Ok (length (heap w)), World (heap w ++ [r']) (clock w)).
Proof.
  intros Hr He. destruct (enrich_refines k w data r Hr) as (r0 & -> & H0).
  rewrite (H0 _ He), He. reflexivity.
Qed.

Lemma enrich_ok_inv k w data r l w' :
  deref w data = Some r → enrich k data w = (Ok l, w') →
  ∃ r', enriched k (clock w) r = Ok r' ∧ l = length (heap w) ∧
        w' = World (heap w ++ [r']) (clock w).
Proof.
  intros Hr He. destruct (enrich_refines k w data r Hr) as (r0 & H & H0).
  rewrite H in He. destruct (enriched k (clock w) r) as [r'|e]; [|done].
  cbn in He. injection He as <- <-. exists r'.
  by rewrite (H0 r' eq_refl).
Qed.

Lemma enrich_raise k w data r e :
  deref w data = Some r →
  (enrich k data w).1 = Raise e ↔ enriched k (clock w) r = Raise e.
Proof.
  intros Hr. destruct (enrich_refines k w data r Hr) as (r0 & -> & _).
  cbn [fst]. destruct (enriched k (clock w) r); cbn; split; congruence.
Qed.

(** The buckets of the code are the buckets of the specification. *)
Lemma transaction_category_number a :
  is_number a →
  transaction_category a = Ok (VStr (transaction_category_spec a)).
Proof.
  intros Ha. unfold transaction_category, transaction_category_spec.
  rewrite !py_lt_number by done. cbn [mbind result_bind].
  destruct (tests_against a 50 Ha) as (-> & _ & _ & ->).
  destruct (tests_against a 200 Ha) as (-> & _ & _ & _).
  pose proof (against_unordered a 50 200).
  pose proof (against_unordered a 200 50).
  destruct (against a 50) as [[]|], (against a 200) as [[]|]; cbn;
    try reflexivity; naive_solver.
Qed.

Lemma fraud_risk_number a :
  is_number a → fraud_risk a = Ok (VStr (fraud_risk_spec a)).
Proof.
  intros Ha. unfold fraud_risk, fraud_risk_spec.
  rewrite !py_gt_number by done. cbn [mbind result_bind].
  destruct (tests_against a 1000 Ha) as (_ & -> & -> & _).
  destruct (tests_against a 500 Ha) as (_ & -> & _ & _).
  pose proof (against_unordered a 1000 500).
  pose proof (against_unordered a 500 1000).
  destruct (against a 1000) as [[]|], (against a 500) as [[]|]; cbn;
    try reflexivity; naive_solver.
Qed.

Lemma user_segment_number a :
  is_number a → user_segment a = Ok (VStr (user_segment_spec a)).
Proof.
  intros Ha. unfold user_segment, user_segment_spec.
  rewrite !py_le_number by done. cbn [mbind result_bind].
  destruct (tests_against a 100 Ha) as (_ & -> & -> & _).
  destruct (tests_against a 500 Ha) as (_ & _ & -> & _).
  pose proof (against_unordered a 100 500).
  destruct (against a 100) as [[]|], (against a 500) as [[]|]; cbn;
    try reflexivity; naive_solver.
Qed.

(** C3: for a transaction whose amount is a number (an absent amount
    counts as 0), [enrich_transaction] returns a record whose
    [transaction_category] is "small" below 50, "medium" from 50 up to but
    not including 200 and "large" otherwise, and whose [fraud_risk] is
    "high" above 1000, "medium" above 500 up to and including 1000 and
    "low" otherwise. *)
Theorem enrich_transaction_buckets w data r amount :
  deref w data = Some r →
  amount = dict_get r "amount" (VInt 0) →
  is_number amount →
  ∃ l w' r',
    enrich_transaction data w = (Ok l, w') ∧ deref w' l = Some r' ∧
    r' !! "transaction_category"
      = Some (VStr (transaction_category_spec amount)) ∧
    r' !! "fraud_risk" = Some (VStr (fraud_risk_spec amount)).
Proof.
  intros Hr -> Ha. eexists _, _, _. split; [|split].
  - eapply (enrich_ok Transaction); [exact Hr|]. cbn [enriched]. cbv zeta.
    rewrite transaction_category_number, fraud_risk_number by done.
    reflexivity.
  - apply deref_new.
  - split.
    + rewrite lookup_insert_ne by done. by rewrite lookup_insert_eq.
    + by rewrite lookup_insert_eq.
Qed.

(** The two amounts the specification singles out: 49.99 (the nearest
    float) is "small", 1500 is "high". *)
Example transaction_category_49_99 :
  transaction_category_spec (VFloat 0x1.8feb851eb851fp+5) = "small".
Proof. vm_compute. reflexivity. Qed.

Example fraud_risk_1500 : fraud_risk_spec (VInt 1500) = "high".
Proof. vm_compute. reflexivity. Qed.

Lemma enrich_transaction_buckets_witness :
  (∃ l w' r',
     enrich_transaction 0%nat
       (world_of (sample_transaction (VFloat 0x1.8feb851eb851fp+5))
                 "2024-01-01T00:00:05")
     = (Ok l, w') ∧ deref w' l = Some r' ∧
     r' !! "transaction_category" = Some (VStr "small") ∧
     r' !! "fraud_risk" = Some (VStr "low")) ∧
  (∃ l w' r',
     enrich_transaction 0%nat
       (world_of (sample_transaction (VInt 1500)) "2024-01-01T00:00:05")
     = (Ok l, w') ∧ deref w' l = Some r' ∧
     r' !! "transaction_category" = Some (VStr "large") ∧
     r' !! "fraud_risk" = Some (VStr "high")).
Proof.
  split.
  - apply (enrich_transaction_buckets
             (world_of (sample_transaction (VFloat 0x1.8feb851eb851fp+5)) _)
             0%nat (sample_transaction (VFloat 0x1.8feb851eb851fp+5))
             (VFloat 0x1.8feb851eb851fp+5));
      [reflexivity | reflexivity | by eexists].
  - apply (enrich_transaction_buckets
             (world_of (sample_transaction (VInt 1500)) _)
             0%nat (sample_transaction (VInt 1500)) (VInt 1500));
      [reflexivity | reflexivity | by eexists].
Defined.

Lemma heat_index_number t h :
  is_number t → is_number h → heat_index t h = heat_index_spec t h.
Proof.
  intros Ht Hh. unfold heat_index, heat_index_spec, py_and.
  rewrite !py_gt_number by done. cbn [mbind result_bind].
  by destruct (above t 27), (above h 40).
Qed.

Lemma temperature_alert_number t :
  is_number t →
  py_or (py_gt t (VInt 35)) (py_lt t (VInt 5)) = Ok (temperature_alert_spec t).
Proof.
  intros Ht. unfold py_or, temperature_alert_spec.
  rewrite py_gt_number, py_lt_number by done. cbn [mbind result_bind].
  by destruct (above t 35).
Qed.

Lemma humidity_alert_number h :
  is_number h →
  py_or (py_gt h (VInt 90)) (py_lt h (VInt 10)) = Ok (humidity_alert_spec h).
Proof.
  intros Hh. unfold py_or, humidity_alert_spec.
  rewrite py_gt_number, py_lt_number by done. cbn [mbind result_bind].
  by destruct (above h 90).
Qed.





(** C4: for a sensor reading whose temperature and humidity are numbers
    (an absent one counts as 0), [enrich_sensor_data] returns a record whose
    [heat_index] is [temperature + 0.5 * humidity] when temperature > 27
    and humidity > 40 and the temperature itself otherwise, whose
    [temperature_alert] is [temperature > 35 or temperature < 5] and whose
    [humidity_alert] is [humidity > 90 or humidity < 10]. *)
Theorem enrich_sensor_data_derived w data r temperature humidity hi :
  deref w data = Some r →
  temperature = dict_get r "temperature" (VInt 0) →
  humidity = dict_get r "humidity" (VInt 0) →
  is_number temperature → is_number humidity →
  heat_index_spec temperature humidity = Ok hi →
  ∃ l w' r',
    enrich_sensor_data data w = (Ok l, w') ∧ deref w' l = Some r' ∧
    r' !! "heat_index" = Some hi ∧
    r' !! "temperature_alert"
      = Some (VBool (temperature_alert_spec temperature)) ∧
    r' !! "humidity_alert" = Some (VBool (humidity_alert_spec humidity)).
Proof.
  intros Hr -> -> Ht Hh Hhi. eexists _, _, _. split; [|split].
  - eapply (enrich_ok SensorReading); [exact Hr|]. cbn [enriched]. cbv zeta.
    rewrite heat_index_number, Hhi by done.
    rewrite temperature_alert_number, humidity_alert_number by done.
    reflexivity.
  - apply deref_new.
  - repeat split.
    + rewrite !lookup_insert_ne by done. by rewrite lookup_insert_eq.
    + rewrite !lookup_insert_ne by done. by rewrite lookup_insert_eq.
    + by rewrite lookup_insert_eq.
Qed.

(** The two readings of the specification's example. *)
Example heat_index_30_50 :
  heat_index_spec (VInt 30) (VInt 50) = Ok (VFloat 55).
Proof. vm_compute. reflexivity. Qed.

Example heat_index_10_20 :
  heat_index_spec (VInt 10) (VInt 20) = Ok (VInt 10).
Proof. vm_compute. reflexivity. Qed.

Lemma enrich_sensor_data_derived_witness :
  (∃ l w' r',
     enrich_sensor_data 0%nat
       (world_of (sample_reading (VInt 30) (VInt 50)) "2024-01-01T00:00:05")
     = (Ok l, w') ∧ deref w' l = Some r' ∧
     r' !! "heat_index" = Some (VFloat 55) ∧
     r' !! "temperature_alert" = Some (VBool false) ∧
     r' !! "humidity_alert" = Some (VBool false)) ∧
  (∃ l w' r',
     enrich_sensor_data 0%nat
       (world_of (sample_reading (VInt 10) (VInt 20)) "2024-01-01T00:00:05")
     = (Ok l, w') ∧ deref w' l = Some r' ∧
     r' !! "heat_index" = Some (VInt 10) ∧
     r' !! "temperature_alert" = Some (VBool false) ∧
     r' !! "humidity_alert" = Some (VBool false)).
Proof.
  split.
  - apply (enrich_sensor_data_derived
             (world_of (sample_reading (VInt 30) (VInt 50)) _) 0%nat
             (sample_reading (VInt 30) (VInt 50)) (VInt 30) (VInt 50));
      first [reflexivity | by eexists].
  - apply (enrich_sensor_data_derived
             (world_of (sample_reading (VInt 10) (VInt 20)) _) 0%nat
             (sample_reading (VInt 10) (VInt 20)) (VInt 10) (VInt 20));
      first [reflexivity | by eexists].
Defined.

(* ===================================================================== *)
(** ** Enrichers and the store *)
(* ===================================================================== *)

(** C5: an enricher never mutates its argument.  Whatever the call does
    (return or raise), every object that was in the store before the call,
    the input among them, holds the same items afterwards; and the address
    a successful call returns is a new one: it differs from the input's,
    was not in the store before, and is in the store now. *)
Theorem enrich_never_mutates_input (k : kind) w data r :
  deref w data = Some r →
  deref (enrich k data w).2 data = Some r ∧
  (∀ l r0, deref w l = Some r0 → deref (enrich k data w).2 l = Some r0) ∧
  (∀ l, (enrich k data w).1 = Ok l →
        l ≠ data ∧ deref w l = None ∧ is_Some (deref (enrich k data w).2 l)).
Proof.
  intros Hr. destruct (enrich_refines k w data r Hr) as (r' & -> & _).
  cbn [fst snd]. split; [|split].
  - by apply deref_old.
  - intros l r0 Hl. by apply deref_old.
  - intros l Hl.
    assert (l = length (heap w)) as ->.
    { destruct (enriched k (clock w) r); cbn in Hl; congruence. }
    split; [|split].
    + apply lookup_lt_Some in Hr. lia.
    + by apply lookup_ge_None.
    + rewrite deref_new. by eexists.
Qed.

Lemma enrich_never_mutates_input_witness :
  deref (enrich UserEvent 0%nat (world_of tagged_event "2024-01-01T00:00:05")).2
        0%nat
  = Some tagged_event.
Proof.
  exact (proj1 (enrich_never_mutates_input UserEvent
                  (world_of tagged_event "2024-01-01T00:00:05") 0%nat
                  tagged_event eq_refl)).
Defined.

Ltac split_elem H :=
  repeat (apply elem_of_cons in H as [->|H]); [..|by apply elem_of_nil in H].

Ltac split_not_elem H :=
  repeat (apply not_elem_of_cons in H as [? H]).

Lemma stamped_lookup now (r : dict) :
  stamped now r !! "processed_at" = Some (VStr now) ∧
  stamped now r !! "data_source" = Some (VStr "kafka_stream").
Proof.
  unfold stamped. split.
  - rewrite lookup_insert_ne by done. by rewrite lookup_insert_eq.
  - by rewrite lookup_insert_eq.
Qed.

(** The record an enricher builds: the input's items under every key that
    is not a derived field, and a value under every derived field. *)
Lemma enriched_fields k now r r' :
  enriched k now r = Ok r' →
  (∀ f, f ∉ derived_fields k → r' !! f = r !! f) ∧
  (∀ f, f ∈ derived_fields k → is_Some (r' !! f)) ∧
  r' !! "processed_at" = Some (VStr now) ∧
  r' !! "data_source" = Some (VStr "kafka_stream").
Proof.
  destruct (stamped_lookup now r) as [Hp Hs].
  destruct k; cbn [enriched derived_fields]; cbv zeta;
    unfold mbind, result_bind; repeat case_result; try done;
    intros [= <-]; (split; [|split; [|split]]);
    try (by rewrite !lookup_insert_ne by done).
  all: try (intros f Hf; split_not_elem Hf; unfold stamped;
            by rewrite !lookup_insert_ne by congruence).
  all: intros f Hf; split_elem Hf;
    repeat first [ rewrite lookup_insert_eq | rewrite lookup_insert_ne by done ];
    eauto.
Qed.

Lemma py_compare_returns_number a c o :
  py_compare a (VInt c) = Ok o → is_number a.
Proof.
  unfold py_compare. destruct (as_num a) eqn:E; [by eexists|]. by destruct a.
Qed.

Lemma py_tests_return_number a c b :
  py_lt a (VInt c) = Ok b ∨ py_le a (VInt c) = Ok b ∨ py_gt a (VInt c) = Ok b →
  is_number a.
Proof.
  unfold py_lt, py_le, py_gt.
  destruct (py_compare a (VInt c)) eqn:E;
    [intros _; by apply py_compare_returns_number in E|].
  cbn. intuition discriminate.
Qed.

(** When the enricher returns, the fields it read were numbers and the
    derived fields hold the values the specification gives. *)
Lemma enriched_derived k now r r' :
  enriched k now r = Ok r' → derived_values k now r r'.
Proof.
  intros He. destruct (enriched_fields k now r r' He) as (_ & _ & Hp & Hs).
  split; [done|]. split; [done|].
  destruct k; cbn [enriched] in He; cbv zeta in He.
  - set (u := dict_get r "user_id" (VInt 0)) in *.
    assert (is_number u) as Hu.
    { unfold user_segment in He.
      destruct (py_le u (VInt 100)) eqn:E; [|done].
      apply (py_tests_return_number u 100 a). auto. }
    rewrite user_segment_number in He by done. cbn [mbind result_bind] in He.
    injection He as <-. by rewrite lookup_insert_eq.
  - cbv zeta.
    set (t := dict_get r "temperature" (VInt 0)) in *.
    set (h := dict_get r "humidity" (VInt 0)) in *.
    destruct (heat_index t h) as [hi|] eqn:Hhi; [|done].
    cbn [mbind result_bind] in He.
    destruct (py_or (py_gt t (VInt 35)) (py_lt t (VInt 5))) as [ta|] eqn:Hta;
      [|done].
    cbn [mbind result_bind] in He.
    destruct (py_or (py_gt h (VInt 90)) (py_lt h (VInt 10))) as [ha|] eqn:Hha;
      [|done].
    cbn [mbind result_bind] in He.
    assert (is_number t) as Ht.
    { unfold py_or in Hta. destruct (py_gt t (VInt 35)) eqn:E; [|done].
      apply (py_tests_return_number t 35 a). auto. }
    assert (is_number h) as Hh.
    { unfold py_or in Hha. destruct (py_gt h (VInt 90)) eqn:E; [|done].
      apply (py_tests_return_number h 90 a). auto. }
    rewrite heat_index_number in Hhi by done.
    rewrite temperature_alert_number in Hta by done.
    rewrite humidity_alert_number in Hha by done.
    injection Hta as <-. injection Hha as <-. injection He as <-.
    split; [|split].
    + exists hi. split; [done|].
      rewrite !lookup_insert_ne by done. by rewrite lookup_insert_eq.
    + rewrite lookup_insert_ne by done. by rewrite lookup_insert_eq.
    + by rewrite lookup_insert_eq.
  - cbv zeta.
    set (a := dict_get r "amount" (VInt 0)) in *.
    assert (is_number a) as Ha.
    { unfold transaction_category in He.
      destruct (py_lt a (VInt 50)) eqn:E; [|done].
      apply (py_tests_return_number a 50 a0). auto. }
    rewrite transaction_category_number, fraud_risk_number in He by done.
    cbn [mbind result_bind] in He. injection He as <-. split.
    + rewrite lookup_insert_ne by done. by rewrite lookup_insert_eq.
    + by rewrite lookup_insert_eq.
Qed.

(** C6, as amended: the record a successful [enrich] returns binds every
    key that is not the name of a derived field exactly as the input does
    (present with the same value, or absent), and binds every derived
    field to its derived value, whatever the input held under that name:
    [processed_at] to the clock reading of the call, [data_source] to
    kafka_stream, and the fields of the kind to the segment, the heat index
    and alerts, or the category and risk the specification gives
    ([derived_values]). *)
Theorem enrich_preserves_underived_fields (k : kind) w data r l w' :
  deref w data = Some r →
  enrich k data w = (Ok l, w') →
  ∃ r', deref w' l = Some r' ∧
        (∀ f, f ∉ derived_fields k → r' !! f = r !! f) ∧
        (∀ f, f ∈ derived_fields k → is_Some (r' !! f)) ∧
        derived_values k (clock w) r r'.
Proof.
  intros Hr He.
  destruct (enrich_ok_inv k w data r l w' Hr He) as (r' & Hr' & -> & ->).
  exists r'. split; [apply deref_new|].
  destruct (enriched_fields k _ r r' Hr') as (H1 & H2 & _).
  split; [done|]. split; [done|]. by apply enriched_derived.
Qed.

(** A user event that already has a [data_source]: the output binds that
    key to another value than the input does. *)
Lemma enrich_overwrites_data_source :
  (enrich UserEvent 0%nat (world_of tagged_event "2024-01-01T00:00:05")).1
  = Ok 1%nat ∧
  tagged_event !! "data_source" = Some (VStr "batch_import") ∧
  deref (enrich UserEvent 0%nat
           (world_of tagged_event "2024-01-01T00:00:05")).2 1%nat
    ≫= (.!! "data_source")
  = Some (VStr "kafka_stream").
Proof. vm_compute. auto. Qed.

Lemma enrich_preserves_underived_fields_witness :
  ∃ r', deref (World [tagged_event; <["user_segment" := VStr "premium"]>
                        (stamped "2024-01-01T00:00:05" tagged_event)]
                 "2024-01-01T00:00:05") 1%nat = Some r' ∧
        (∀ f, f ∉ derived_fields UserEvent → r' !! f = tagged_event !! f) ∧
        (∀ f, f ∈ derived_fields UserEvent → is_Some (r' !! f)) ∧
        derived_values UserEvent "2024-01-01T00:00:05" tagged_event r'.
Proof.
  apply (enrich_preserves_underived_fields UserEvent
           (world_of tagged_event "2024-01-01T00:00:05") 0%nat tagged_event
           1%nat).
  - reflexivity.
  - reflexivity.
Defined.

(* ===================================================================== *)
(** ** Determinism *)
(* ===================================================================== *)

(** What an enricher builds depends on the clock through [processed_at]
    only. *)
Lemma enriched_clock k now1 now2 r :
  match enriched k now1 r, enriched k now2 r with
  | Ok r1, Ok r2 =>
      (∀ f, f ≠ "processed_at" → r1 !! f = r2 !! f) ∧
      r1 !! "processed_at" = Some (VStr now1) ∧
      r2 !! "processed_at" = Some (VStr now2)
  | Raise e1, Raise e2 => e1 = e2
  | _, _ => False
  end.
Proof.
  destruct k; cbn [enriched]; cbv zeta; unfold mbind, result_bind;
    repeat case_result; try done; unfold stamped;
    (split; [|split]);
    try (by rewrite !lookup_insert_ne by done; rewrite lookup_insert_eq).
  all: intros f Hf; rewrite !lookup_insert; repeat case_decide; congruence.
Qed.

















(** The same user event enriched at two clock readings: both calls
    succeed, and the records they return differ, in [processed_at]. *)
Lemma enrich_depends_on_clock :
  (enrich UserEvent 0%nat
     (world_of (sample_event (VInt 1) "login") "2024-01-01T00:00:05")).1
  = Ok 1%nat ∧
  (enrich UserEvent 0%nat
     (world_of (sample_event (VInt 1) "login") "2024-01-01T00:00:06")).1
  = Ok 1%nat ∧
  deref (enrich UserEvent 0%nat
           (world_of (sample_event (VInt 1) "login") "2024-01-01T00:00:05")).2
        1%nat
  ≠ deref (enrich UserEvent 0%nat
             (world_of (sample_event (VInt 1) "login") "2024-01-01T00:00:06")).2
          1%nat.
Proof.
  split; [reflexivity|]. split; [reflexivity|].
  intros H. apply (f_equal (λ o, o ≫= (.!! "processed_at"))) in H.
  vm_compute in H. discriminate.
Qed.


(* ===================================================================== *)
(** ** Enrichment and validity *)
(* ===================================================================== *)

Lemma has_all_agree fs (r r' : dict) :
  (∀ f, f ∈ fs → r' !! f = r !! f) → has_all fs r' = has_all fs r.
Proof.
  intros H. unfold has_all, dict_contains.
  induction fs as [|f fs IH]; [done|]. cbn [forallb].
  rewrite (H f) by set_solver. rewrite IH; [done|].
  intros g Hg. apply H. set_solver.
Qed.

(** A validator reads the required fields only. *)
Lemma is_valid_agree k (r r' : dict) :
  (∀ f, f ∈ required_fields k → r' !! f = r !! f) →
  is_valid k r' = is_valid k r.
Proof.
  intros H. pose proof (has_all_agree _ r r' H) as Hall.
  destruct k; cbn [is_valid required_fields] in *;
    unfold validate_user_event, validate_sensor_data, validate_transaction,
      dict_getitem; cbv zeta; rewrite Hall.
  - done.
  - by rewrite (H "temperature"), (H "humidity") by set_solver.
  - by rewrite (H "amount"), (H "currency") by set_solver.
Qed.


(** Enrichment returns whenever the fields it reads are numbers (or
    absent) and, for a sensor reading, the heat index does not overflow. *)
Lemma enriched_returns k now r :
  (∀ f v, f ∈ inspected_fields k → r !! f = Some v → is_number v) →
  (k = SensorReading →
   returns (heat_index_spec (dict_get r "temperature" (VInt 0))
                            (dict_get r "humidity" (VInt 0)))) →
  returns (enriched k now r).
Proof.
  intros Hnum Hhi.
  assert (∀ f, f ∈ inspected_fields k → is_number (dict_get r f (VInt 0)))
    as Hget.
  { intros f Hf. unfold dict_get. destruct (r !! f) as [v|] eqn:Hv; cbn.
    - by apply (Hnum f).
    - by eexists. }
  destruct k; cbn [enriched inspected_fields] in *; cbv zeta.
  - unfold user_segment. rewrite !py_le_number by (apply Hget; set_solver).
    cbn [mbind result_bind]. destruct (at_most _ 100); by eexists.
  - destruct (Hhi eq_refl) as [hi Hhi'].
    rewrite heat_index_number, Hhi' by (apply Hget; set_solver).
    rewrite temperature_alert_number, humidity_alert_number
      by (apply Hget; set_solver).
    by eexists.
  - rewrite transaction_category_number, fraud_risk_number
      by (apply Hget; set_solver).
    by eexists.
Qed.






(* ===================================================================== *)
(** ** Aggregators *)
(* ===================================================================== *)

(** C7: on the empty list each of the three aggregators returns the empty
    mapping; nothing is raised, no division takes place. *)
Theorem aggregate_empty :
  aggregate_user_events [] = Ok ∅ ∧
  aggregate_sensor_data [] = Ok ∅ ∧
  aggregate_transactions [] = Ok ∅.
Proof. repeat split; reflexivity. Qed.

Lemma py_eq_plain a b : plain a → plain b → py_eq a b = true ↔ a = b.
Proof.
  intros [[x ->]|[s ->]] [[y ->]|[t ->]]; cbn.
  - destruct (Z.compare_spec x y) as [->| |]; [done|..];
      (split; [done|]; intros [=]; lia).
  - done.
  - done.
  - rewrite String.eqb_eq. split; congruence.
Qed.

Lemma py_eq_plain_refl a : plain a → py_eq a a = true.
Proof. intros Ha. by apply py_eq_plain. Qed.

Section Tables.
Context {V : Type}.
Implicit Types (t : table V) (k : pyval) (v : V).

Lemma table_find_set t k v k' :
  Forall plain t.*1 → plain k → plain k' →
  table_find (table_set t k v) k'
  = if py_eq k k' then Some v else table_find t k'.
Proof.
  intros Ht Hk Hk'. induction t as [|[k0 v0] t IH]; cbn.
  - done.
  - apply Forall_cons in Ht as [Hk0 Ht].
    destruct (py_eq k0 k) eqn:E; cbn.
    + apply py_eq_plain in E as ->; [|done..].
      by destruct (py_eq k k').
    + rewrite IH by done.
      destruct (py_eq k0 k') eqn:E0, (py_eq k k') eqn:E1; try done.
      apply py_eq_plain in E0 as ->, E1 as ->; try done.
      rewrite py_eq_plain_refl in E; done.
Qed.

Lemma table_find_keys t k :
  Forall plain t.*1 → plain k → is_Some (table_find t k) ↔ k ∈ t.*1.
Proof.
  intros Ht Hk. induction t as [|[k0 v0] t IH]; cbn.
  - split; [by intros [? [=]] | by intros ?%elem_of_nil].
  - apply Forall_cons in Ht as [Hk0 Ht]. rewrite elem_of_cons.
    destruct (py_eq k0 k) eqn:E.
    + apply py_eq_plain in E as ->; [|done..]. split; eauto.
    + rewrite IH by done. split; [tauto|]. intros [->|?]; [|done].
      rewrite py_eq_plain_refl in E; done.
Qed.

Lemma table_set_keys t k v :
  (table_set t k v).*1
  = if table_find t k is Some _ then t.*1 else t.*1 ++ [k].
Proof.
  induction t as [|[k0 v0] t IH]; cbn; [done|].
  destruct (py_eq k0 k); cbn; [done|].
  rewrite IH. by destruct (table_find t k).
Qed.
End Tables.

Lemma occurrences_snoc x events e :
  occurrences x (events ++ [e])
  = occurrences x events + (if py_eq (event_type_of e) x then 1 else 0).
Proof.
  unfold occurrences. rewrite filter_app, length_app, Nat2Z.inj_add.
  f_equal. destruct (py_eq (event_type_of e) x) eqn:E.
  - by rewrite filter_cons_True.
  - rewrite filter_cons_False; [done|]. by rewrite E.
Qed.

Lemma occurrences_nonneg x events : 0 ≤ occurrences x events.
Proof. unfold occurrences. lia. Qed.

Lemma is_str_plain k : is_str k → plain k.
Proof. by right. Qed.

Lemma user_events_loop events :
  typed_events events →
  ∃ event_types user_activity,
    foldl user_events_step (Ok ([], [])) events
    = Ok (event_types, user_activity) ∧
    counted events event_types user_activity.
Proof.
  induction events as [|e events IH] using rev_ind; intros Hty.
  - exists [], []. split; [done|]. split; cbn.
    + constructor.
    + constructor.
    + by intros k ?%elem_of_nil.
    + done.
    + exists []. split; [done|]. split; [constructor|done].
  - destruct IH
      as (et & ua & Hrun &
          [Hpl Hnd Hfrom Hfind (ids & Hids & Hidsnd & Hmem)]).
    { intros e' He'. apply Hty, elem_of_app. by left. }
    destruct (Hty e) as [[z Hz] [s Hs]].
    { apply elem_of_app. right. by apply list_elem_of_singleton. }
    rewrite foldl_app. cbn [foldl]. rewrite Hrun.
    unfold user_events_step at 1. cbn [mbind result_bind].
    fold (event_type_of e) (user_id_of e). rewrite Hz, Hs.
    assert (Forall plain et.*1) as Hpl'.
    { eapply Forall_impl; [exact Hpl|]. apply is_str_plain. }
    assert (plain (VStr s)) as Hps by (right; by eexists).
    assert (table_get et (VStr s) (VInt 0)
            = VInt (occurrences (VStr s) events)) as ->.
    { unfold table_get. rewrite Hfind by done.
      destruct (occurrences (VStr s) events =? 0) eqn:E; [|done].
      apply Z.eqb_eq in E. by rewrite E. }
    cbn [py_add as_num num_add of_num mbind result_bind].
    eexists _, _. split; [reflexivity|]. split.
    + rewrite table_set_keys. destruct (table_find et (VStr s)); [done|].
      apply Forall_app. split; [done|]. repeat constructor. by eexists.
    + rewrite table_set_keys.
      destruct (table_find et (VStr s)) eqn:F; [done|].
      apply NoDup_app. split; [done|]. split; [|apply NoDup_singleton].
      intros k Hk ->%list_elem_of_singleton.
      apply (table_find_keys et (VStr s)) in Hk; [|done..].
      rewrite F in Hk. by destruct Hk.
    + intros k. rewrite table_set_keys.
      destruct (table_find et (VStr s)) eqn:F.
      * intros (e' & ? & ?)%Hfrom. exists e'.
        split; [apply elem_of_app; by left | done].
      * intros [Hk| ->%list_elem_of_singleton]%elem_of_app.
        -- destruct (Hfrom k Hk) as (e' & ? & ?). exists e'.
           split; [apply elem_of_app; by left | done].
        -- exists e. split; [|done].
           apply elem_of_app. right. by apply list_elem_of_singleton.
    + intros x Hx. rewrite table_find_set by done.
      rewrite occurrences_snoc, Hs.
      pose proof (occurrences_nonneg x events).
      destruct (py_eq (VStr s) x) eqn:E.
      * apply py_eq_plain in E as <-; [|done..].
        destruct (_ + 1 =? 0) eqn:E0; [apply Z.eqb_eq in E0; lia|done].
      * rewrite Z.add_0_r. by apply Hfind.
    + unfold table_append. rewrite table_set_keys.
      assert (Forall plain ua.*1) as Hpu.
      { rewrite Hids. apply Forall_fmap, Forall_forall.
        intros ? _. left. by eexists. }
      assert (plain (VInt z)) as Hpz by (left; by eexists).
      pose proof (table_find_keys ua (VInt z) Hpu Hpz) as Hk.
      assert (Inj (=) (=) VInt) as Hinj by (by intros ? ? [=]).
      rewrite Hids, (list_elem_of_fmap_inj VInt) in Hk.
      destruct (table_find ua (VInt z)) eqn:F.
      * exists ids. split; [done|]. split; [done|].
        intros z'. rewrite fmap_app, elem_of_app, <- Hmem. cbn.
        rewrite Hz, list_elem_of_singleton. cbn.
        assert (z ∈ ids) by (apply Hk; eauto). split; [tauto|].
        intros [?| ->]; done.
      * exists (ids ++ [z]). split; [by rewrite Hids, fmap_app|].
        assert (z ∉ ids) as Hni.
        { intros Hin. apply Hk in Hin. by destruct Hin. }
        split.
        -- apply NoDup_app. split; [done|]. split; [|apply NoDup_singleton].
           intros ? ? ->%list_elem_of_singleton. done.
        -- intros z'. rewrite fmap_app, !elem_of_app, <- Hmem. cbn.
           by rewrite Hz.
Qed.

Lemma py_truediv_ints a b :
  py_truediv (VInt a) (VInt b) = (q ← int_truediv a b; Ok (VFloat q)).
Proof.
  unfold py_truediv. cbn [as_num num_truediv].
  by destruct (int_truediv a b).
Qed.

Lemma int_truediv_small a b :
  b ≠ 0 → Z.abs a < 2 ^ 53 → Z.abs b < 2 ^ 53 →
  int_truediv a b = Ok (Z_to_float a / Z_to_float b)%float.
Proof.
  intros Hb Ha Hb'. unfold int_truediv.
  rewrite (proj2 (Z.eqb_neq b 0) Hb).
  rewrite (proj2 (Z.ltb_lt _ _) Ha), (proj2 (Z.ltb_lt _ _) Hb').
  reflexivity.
Qed.

Lemma occurrences_pos x events e :
  e ∈ events → py_eq (event_type_of e) x = true → 0 < occurrences x events.
Proof.
  intros He Hx. unfold occurrences.
  assert (e ∈ filter (λ e, py_eq (event_type_of e) x = true) events) as Hin
    by (by apply list_elem_of_filter).
  destruct (filter _ events); [by apply elem_of_nil in Hin|cbn; lia].
Qed.

Lemma distinct_users_bounds events :
  events ≠ [] → 1 ≤ distinct_users events ≤ Z.of_nat (length events).
Proof.
  intros Hne. unfold distinct_users.
  set (ids := int_of ∘ user_id_of <$> events).
  assert (length ids = length events) as Hlen by apply length_fmap.
  split.
  - destruct events as [|e events]; [done|].
    assert (size (list_to_set (C := gset Z) ids) ≠ 0%nat); [|lia].
    intros H%size_empty_inv.
    assert (int_of (user_id_of e) ∈ list_to_set (C := gset Z) ids) as Hin.
    { apply elem_of_list_to_set. subst ids. cbn. apply elem_of_cons. by left. }
    rewrite H in Hin. by apply elem_of_empty in Hin.
  - rewrite <- Hlen. apply inj_le.
    unfold size, set_size. cbn.
    apply submseteq_length, NoDup_submseteq; [apply NoDup_elements|].
    intros z Hz. by apply elem_of_elements, elem_of_list_to_set in Hz.
Qed.

(** C8: on a non-empty list of user events (user ids integers, event types
    strings; an absent user id counts as 0 and an absent event type as
    "unknown"), [aggregate_user_events] returns the number of events, a
    table that maps each event type occurring in the list, and nothing
    else, to the number of events of that type, the number of distinct
    user ids, and the quotient of the two numbers, which is their float
    quotient for any list shorter than 2^53.  There is at least one user,
    so the quotient is defined. *)
Theorem aggregate_user_events_spec (events : list dict) :
  events ≠ [] →
  typed_events events →
  ∃ counts,
    aggregate_user_events events
    = (avg ← py_truediv (VLen events) (VInt (distinct_users events));
       Ok (user_events_summary (Z.of_nat (length events)) counts
             (distinct_users events) avg)) ∧
    1 ≤ distinct_users events ≤ Z.of_nat (length events) ∧
    (Z.of_nat (length events) < 2 ^ 53 →
     py_truediv (VLen events) (VInt (distinct_users events))
     = Ok (VFloat (Z_to_float (Z.of_nat (length events))
                   / Z_to_float (distinct_users events)))) ∧
    NoDup counts.*1 ∧
    (∀ e, e ∈ events →
          table_find counts (event_type_of e)
          = Some (VInt (occurrences (event_type_of e) events))) ∧
    (∀ k, k ∈ counts.*1 → ∃ e, e ∈ events ∧ event_type_of e = k).
Proof.
  intros Hne Hty.
  destruct (user_events_loop events Hty)
    as (et & ua & Hrun & [Hpl Hnd Hfrom Hfind (ids & Hids & Hidsnd & Hmem)]).
  pose proof (distinct_users_bounds events Hne) as Hb.
  assert (Z.of_nat (length ua) = distinct_users events) as Hua.
  { unfold distinct_users. f_equal.
    rewrite <- (length_fmap fst ua), Hids, length_fmap.
    rewrite <- (size_list_to_set (C := gset Z) ids Hidsnd).
    f_equal. apply set_eq. intros z. by rewrite !elem_of_list_to_set. }
  exists et. split; [|split; [done|split; [|split; [done|split; [|done]]]]].
  - unfold aggregate_user_events. destruct events as [|e0 events]; [done|].
    rewrite Hrun. cbn [mbind result_bind].
    destruct ua as [|u ua]; [cbn in Hua; lia|].
    assert (VLen (u :: ua) = VInt (distinct_users (e0 :: events))) as ->
      by (unfold VLen; by rewrite Hua).
    reflexivity.
  - intros Hsmall. unfold VLen. rewrite py_truediv_ints.
    rewrite int_truediv_small by lia. reflexivity.
  - intros e He. destruct (Hty e He) as [_ [s Hs]].
    assert (plain (event_type_of e)) as Hp by (right; by eexists).
    rewrite Hfind by done.
    pose proof (occurrences_pos (event_type_of e) events e He
                  (py_eq_plain_refl _ Hp)) as Hpos.
    destruct (_ =? 0) eqn:E; [apply Z.eqb_eq in E; lia|done].
Qed.

(** The specification's example: users 1, 1, 2 with event types a, a, b. *)
Example aggregate_user_events_sample :
  aggregate_user_events sample_events
  = Ok (user_events_summary 3 [(VStr "a", VInt 2); (VStr "b", VInt 1)] 2
          (VFloat 1.5)).
Proof. vm_compute. reflexivity. Qed.

Lemma aggregate_user_events_witness :
  ∃ counts,
    aggregate_user_events sample_events
    = (avg ← py_truediv (VLen sample_events)
                        (VInt (distinct_users sample_events));
       Ok (user_events_summary (Z.of_nat (length sample_events)) counts
             (distinct_users sample_events) avg)) ∧
    1 ≤ distinct_users sample_events ≤ Z.of_nat (length sample_events) ∧
    (Z.of_nat (length sample_events) < 2 ^ 53 →
     py_truediv (VLen sample_events) (VInt (distinct_users sample_events))
     = Ok (VFloat (Z_to_float (Z.of_nat (length sample_events))
                   / Z_to_float (distinct_users sample_events)))) ∧
    NoDup counts.*1 ∧
    (∀ e, e ∈ sample_events →
          table_find counts (event_type_of e)
          = Some (VInt (occurrences (event_type_of e) sample_events))) ∧
    (∀ k, k ∈ counts.*1 → ∃ e, e ∈ sample_events ∧ event_type_of e = k).
Proof.
  apply (aggregate_user_events_spec sample_events).
  - discriminate.
  - intros e He. unfold sample_events in He.
    repeat (apply elem_of_cons in He as [->|He]);
      [..|by apply elem_of_nil in He]; split; eexists; reflexivity.
Defined.

(* ===================================================================== *)
(** * Further properties of the validators, enrichers and aggregators *)
(* ===================================================================== *)

(** ** Validators: beyond the range test *)

(** X1: a validator looks at its required fields only.  Setting any other
    key to any value, or deleting it, leaves the outcome of the validator
    unchanged, be it [True], [False] or the exception. *)
Theorem validators_ignore_other_fields (k : kind) (r : dict) f :
  f ∉ required_fields k →
  (∀ v, is_valid k (<[f := v]> r) = is_valid k r) ∧
  is_valid k (delete f r) = is_valid k r.
Proof.
  intros Hf. split; [intros v|]; apply is_valid_agree; intros g Hg;
    [apply lookup_insert_ne | apply lookup_delete_ne]; by intros ->.
Qed.

Lemma validators_ignore_other_fields_witness :
  (∀ v, is_valid UserEvent (<["page_url" := v]> (sample_event (VInt 7) "click"))
        = is_valid UserEvent (sample_event (VInt 7) "click")) ∧
  is_valid UserEvent (delete "page_url" (sample_event (VInt 7) "click"))
  = is_valid UserEvent (sample_event (VInt 7) "click").
Proof.
  apply (validators_ignore_other_fields UserEvent _ "page_url").
  cbn [required_fields]. compute_done.
Defined.

Lemma py_eq_str s x : py_eq (VStr s) x = true ↔ x = VStr s.
Proof.
  destruct x as [| b | z | g | t]; cbn; try (split; [done|discriminate]).
  rewrite String.eqb_eq. split; congruence.
Qed.

Lemma py_in_accepted c :
  py_in c [VStr "USD"; VStr "EUR"; VStr "GBP"] = true ↔ c ∈ accepted_currencies.
Proof.
  unfold py_in, accepted_currencies. cbn [existsb].
  rewrite !orb_true_iff, !py_eq_str, !elem_of_cons, elem_of_nil.
  intuition congruence.
Qed.

Lemma at_most_int z c : at_most (VInt z) c = true ↔ z ≤ c.
Proof.
  unfold at_most, py_le. cbn.
  destruct (Z.compare_spec z c); cbn; split; intros; try done; lia.
Qed.

Lemma validate_transaction_iff r :
  validate_transaction r = Ok true ↔ transaction_valid r.
Proof.
  unfold validate_transaction, transaction_valid, dict_getitem. cbv zeta.
  destruct (has_all _ r) eqn:Hall; cbn [negb].
  - pose proof (proj1 (has_all_spec _ _) Hall) as Hk.
    destruct (Hk "amount") as [a Ha]; [set_solver|].
    destruct (Hk "currency") as [c Hc]; [set_solver|].
    rewrite Ha, Hc. cbn [mbind result_bind]. split.
    + intros H. split; [exact Hk|]. exists a, c.
      destruct (py_le a (VInt 0)) as [[|]|] eqn:Hle; cbn [mbind result_bind] in H;
        try done.
      assert (is_number a) as Hn.
      { unfold py_le, py_compare in Hle.
        destruct (as_num a) eqn:E; [by eexists|]. by destruct a. }
      repeat split; try done.
      * unfold at_most. by rewrite Hle.
      * apply py_in_accepted. by destruct (py_in c _).
    + intros [_ (a' & c' & Ha' & Hc' & Hn & Hle & Hin)].
      assert (a' = a) as -> by congruence.
      assert (c' = c) as -> by congruence.
      rewrite (py_le_number a 0 Hn), Hle. cbn [mbind result_bind].
      apply py_in_accepted in Hin. by rewrite Hin.
  - split; [done|]. intros [Hk _].
    apply has_all_spec in Hk. cbn [required_fields] in Hk. congruence.
Qed.

(** X2: [validate_transaction] returns [True] exactly on the records that
    have the five required keys, whose amount is a number for which
    [amount <= 0] is false, and whose currency is one of the strings USD,
    EUR, GBP.  For an integer amount, [amount <= 0] is false exactly when
    the amount is positive. *)
Theorem validate_transaction_spec :
  (∀ r, validate_transaction r = Ok true ↔ transaction_valid r) ∧
  (∀ z, at_most (VInt z) 0 = false ↔ 0 < z).
Proof.
  split; [apply validate_transaction_iff|].
  intros z. pose proof (at_most_int z 0).
  destruct (at_most (VInt z) 0); split; intros; try done; lia.
Qed.

Lemma validate_transaction_spec_witness :
  validate_transaction (sample_transaction (VFloat 12.5)) = Ok true.
Proof.
  apply (proj1 validate_transaction_spec). split.
  - intros k Hk. cbn [required_fields] in Hk.
    repeat (apply elem_of_cons in Hk as [->|Hk]); try (eexists; reflexivity).
    by apply elem_of_nil in Hk.
  - exists (VFloat 12.5), (VStr "USD").
    repeat split; try reflexivity; [by eexists|].
    apply elem_of_cons. by left.
Defined.

Lemma Zcompare_float_nan c f : is_nan f = true → Zcompare_float c f = None.
Proof. intros H. unfold Zcompare_float, Prim2SF. by rewrite H. Qed.

(** X3: NaN and the validators.  A reading with all required keys whose
    temperature is a NaN is rejected by [validate_sensor_data] (both range
    tests are false), while a transaction with all required keys, an
    accepted currency and a NaN amount is accepted by
    [validate_transaction] ([nan <= 0] is false). *)
Theorem nan_in_validators (f : float) :
  is_nan f = true →
  (∀ r, (∀ k, k ∈ required_fields SensorReading → is_Some (r !! k)) →
        r !! "temperature" = Some (VFloat f) →
        validate_sensor_data r = Ok false) ∧
  (∀ r c, (∀ k, k ∈ required_fields Transaction → is_Some (r !! k)) →
          r !! "amount" = Some (VFloat f) →
          r !! "currency" = Some c → c ∈ accepted_currencies →
          validate_transaction r = Ok true).
Proof.
  intros Hnan. split.
  - intros r Hk Ht. unfold validate_sensor_data, dict_getitem. cbv zeta.
    pose proof (proj2 (has_all_spec _ r) Hk) as Hall.
    cbn [required_fields] in Hall. rewrite Hall. cbn [negb]. rewrite Ht.
    cbn [mbind result_bind].
    unfold py_between, py_le, py_compare. cbn [as_num num_compare].
    rewrite (Zcompare_float_nan 0 f Hnan). reflexivity.
  - intros r c Hk Ha Hc Hin. apply validate_transaction_iff.
    split; [done|]. exists (VFloat f), c. repeat split; try done.
    + by eexists.
    + unfold at_most, py_le, py_compare. cbn [as_num num_compare].
      rewrite (Zcompare_float_nan 0 f Hnan). reflexivity.
Qed.

Lemma nan_in_validators_witness :
  validate_sensor_data (sample_reading (VFloat nan) (VInt 40)) = Ok false ∧
  validate_transaction (sample_transaction (VFloat nan)) = Ok true.
Proof.
  destruct (nan_in_validators nan eq_refl) as [Hs Ht]. split.
  - apply Hs; [|reflexivity]. intros k Hk. cbn [required_fields] in Hk.
    repeat (apply elem_of_cons in Hk as [->|Hk]); try (eexists; reflexivity).
    by apply elem_of_nil in Hk.
  - apply (Ht _ (VStr "USD")); [|reflexivity|reflexivity|].
    + intros k Hk. cbn [required_fields] in Hk.
      repeat (apply elem_of_cons in Hk as [->|Hk]); try (eexists; reflexivity).
      by apply elem_of_nil in Hk.
    + apply elem_of_cons. by left.
Defined.

(** ** Enrichers: segments, errors, composition *)

Lemma user_segment_spec_int z :
  user_segment_spec (VInt z)
  = if z <=? 100 then "premium" else if z <=? 500 then "regular" else "new".
Proof.
  unfold user_segment_spec, at_most, above, py_le, py_gt. cbn.
  destruct (Z.compare_spec z 100), (Z.compare_spec z 500),
    (Z.leb_spec z 100), (Z.leb_spec z 500); cbn; try reflexivity; lia.
Qed.

(** X4: the segment of [enrich_user_event].  When the user id (0 for a
    record without one) is a number, the call returns a record whose
    [user_segment] is premium for [user_id <= 100], regular for
    [100 < user_id <= 500] and new otherwise; on integers these are the
    tests [z <= 100] and [z <= 500]; a record without [user_id] is
    premium. *)
Theorem enrich_user_event_segment :
  (∀ w data r user_id,
     deref w data = Some r →
     user_id = dict_get r "user_id" (VInt 0) →
     is_number user_id →
     ∃ l w' r',
       enrich_user_event data w = (Ok l, w') ∧ deref w' l = Some r' ∧
       r' !! "user_segment" = Some (VStr (user_segment_spec user_id))) ∧
  (∀ z, user_segment_spec (VInt z)
        = if z <=? 100 then "premium"
          else if z <=? 500 then "regular" else "new") ∧
  (∀ r, r !! "user_id" = None →
        user_segment_spec (dict_get r "user_id" (VInt 0)) = "premium").
Proof.
  split; [|split; [apply user_segment_spec_int|]].
  - intros w data r ? Hr -> Hn. eexists _, _, _. split; [|split].
    + eapply (enrich_ok UserEvent); [exact Hr|]. cbn [enriched].
      rewrite user_segment_number by done. reflexivity.
    + apply deref_new.
    + by rewrite lookup_insert_eq.
  - intros r Hr. unfold dict_get. rewrite Hr. reflexivity.
Qed.

Lemma enrich_user_event_segment_witness :
  ∃ l w' r',
    enrich_user_event 0%nat
      (world_of (delete "user_id" (sample_event (VInt 7) "click"))
                "2024-01-01T00:00:05")
    = (Ok l, w') ∧ deref w' l = Some r' ∧
    r' !! "user_segment" = Some (VStr "premium").
Proof.
  apply (proj1 enrich_user_event_segment
           (world_of (delete "user_id" (sample_event (VInt 7) "click")) _)
           0%nat (delete "user_id" (sample_event (VInt 7) "click")) (VInt 0));
    [reflexivity | reflexivity | by eexists].
Defined.

Lemma py_compare_not_number a c :
  ¬ is_number a → py_compare a (VInt c) = Raise TypeError.
Proof.
  intros Ha. unfold py_compare.
  destruct (as_num a) eqn:E; [destruct Ha; by eexists|]. by destruct a.
Qed.

Lemma py_tests_not_number a c :
  ¬ is_number a →
  py_lt a (VInt c) = Raise TypeError ∧
  py_le a (VInt c) = Raise TypeError ∧
  py_gt a (VInt c) = Raise TypeError.
Proof.
  intros Ha. unfold py_lt, py_le, py_gt.
  by rewrite (py_compare_not_number a c Ha).
Qed.

Lemma dict_get_number (r : dict) f :
  (∀ v, r !! f = Some v → is_number v) → is_number (dict_get r f (VInt 0)).
Proof.
  intros H. unfold dict_get. destruct (r !! f) as [v|]; cbn; [by apply H|].
  by eexists.
Qed.

Lemma is_number_dec v : is_number v ∨ ¬ is_number v.
Proof.
  unfold is_number. destruct (as_num v); [left; by eexists|right].
  by intros [? [=]].
Qed.

Lemma float_of_int_raise z e : float_of_int z = Raise e → e = OverflowError.
Proof.
  unfold float_of_int. destruct (binary_normalize _ _ _ _ _); congruence.
Qed.

(** For numbers, the heat index can only fail by overflow. *)
Lemma heat_index_spec_raise t h e :
  is_number t → is_number h →
  heat_index_spec t h = Raise e → e = OverflowError.
Proof.
  intros [x Hx] [y Hy]. unfold heat_index_spec.
  destruct (above t 27 && above h 40); [|done].
  unfold py_mul, py_add. rewrite Hy. cbn [as_num].
  destruct y as [z|g]; cbn [num_mul mbind result_bind].
  - destruct (float_of_int z) eqn:E; cbn [mbind result_bind of_num as_num].
    + rewrite Hx. destruct x as [zt|gt]; cbn [num_add mbind result_bind].
      * destruct (float_of_int zt) eqn:E'; cbn [mbind result_bind]; [done|].
        intros [= <-]. by apply float_of_int_raise in E'.
      * done.
    + intros [= <-]. by apply float_of_int_raise in E.
  - cbn [of_num as_num]. rewrite Hx.
    destruct x as [zt|gt]; cbn [num_add mbind result_bind]; [|done].
    destruct (float_of_int zt) eqn:E'; cbn [mbind result_bind]; [done|].
    intros [= <-]. by apply float_of_int_raise in E'.
Qed.

(** A field the enricher reads that is present and not a number makes the
    enrichment raise [TypeError]. *)
Lemma enriched_type_error k now (r : dict) f v :
  f ∈ inspected_fields k → r !! f = Some v → ¬ is_number v →
  enriched k now r = Raise TypeError.
Proof.
  intros Hf Hv Hn.
  assert (dict_get r f (VInt 0) = v) as Hget by (unfold dict_get; by rewrite Hv).
  destruct k; cbn [enriched inspected_fields] in *; cbv zeta; split_elem Hf;
    rewrite ?Hget.
  - unfold user_segment.
    by rewrite (proj1 (proj2 (py_tests_not_number v 100 Hn))).
  - unfold heat_index, py_and.
    by rewrite (proj2 (proj2 (py_tests_not_number v 27 Hn))).
  - set (t := dict_get r "temperature" (VInt 0)).
    destruct (is_number_dec t) as [Ht|Ht].
    + unfold heat_index, py_and. rewrite (py_gt_number t 27 Ht).
      cbn [mbind result_bind].
      destruct (above t 27).
      * by rewrite (proj2 (proj2 (py_tests_not_number v 40 Hn))).
      * cbn [mbind result_bind].
        rewrite (temperature_alert_number t Ht). cbn [mbind result_bind].
        unfold py_or.
        by rewrite (proj2 (proj2 (py_tests_not_number v 90 Hn))).
    + unfold heat_index, py_and.
      by rewrite (proj2 (proj2 (py_tests_not_number t 27 Ht))).
  - unfold transaction_category.
    by rewrite (proj1 (py_tests_not_number v 50 Hn)).
Qed.

Lemma enriched_raise_cases k now (r : dict) e :
  enriched k now r = Raise e →
  (e = TypeError ∧
   ∃ f v, f ∈ inspected_fields k ∧ r !! f = Some v ∧ ¬ is_number v) ∨
  (e = OverflowError ∧ k = SensorReading).
Proof.
  intros He.
  assert ((∀ f v, f ∈ inspected_fields k → r !! f = Some v → is_number v) ∨
          ∃ f v, f ∈ inspected_fields k ∧ r !! f = Some v ∧ ¬ is_number v)
    as [Hall|(f & v & Hf & Hv & Hn)].
  { assert (∀ f, (∀ v, r !! f = Some v → is_number v) ∨
                 ∃ v, r !! f = Some v ∧ ¬ is_number v) as Hone.
    { intros f. destruct (r !! f) as [v|]; [|left; done].
      destruct (is_number_dec v); [left; by intros ? [= <-]|right; eauto]. }
    destruct k; cbn [inspected_fields].
    - destruct (Hone "user_id") as [H|(v & ? & ?)].
      + left. intros f v Hf. split_elem Hf. apply H.
      + right. exists "user_id", v. repeat split; try done. apply elem_of_cons; by left.
    - destruct (Hone "temperature") as [H|(v & ? & ?)];
        [destruct (Hone "humidity") as [H'|(v & ? & ?)]|].
      + left. intros f v Hf. split_elem Hf; [apply H|apply H'].
      + right. exists "humidity", v. repeat split; try done.
        apply elem_of_cons; right; apply elem_of_cons; by left.
      + right. exists "temperature", v. repeat split; try done.
        apply elem_of_cons; by left.
    - destruct (Hone "amount") as [H|(v & ? & ?)].
      + left. intros f v Hf. split_elem Hf. apply H.
      + right. exists "amount", v. repeat split; try done. apply elem_of_cons; by left. }
  - destruct k.
    + destruct (enriched_returns UserEvent now r Hall) as [? H]; [done|congruence].
    + right. split; [|done].
      assert (is_number (dict_get r "temperature" (VInt 0))) as Ht.
      { apply dict_get_number. intros v. apply Hall. apply elem_of_cons; by left. }
      assert (is_number (dict_get r "humidity" (VInt 0))) as Hh.
      { apply dict_get_number. intros v. apply Hall.
        apply elem_of_cons; right; apply elem_of_cons; by left. }
      destruct (heat_index_spec (dict_get r "temperature" (VInt 0))
                                (dict_get r "humidity" (VInt 0))) as [hi|e'] eqn:Hhi.
      * destruct (enriched_returns SensorReading now r Hall) as [? H];
          [intros _; by eexists|congruence].
      * pose proof (heat_index_spec_raise _ _ _ Ht Hh Hhi) as ->.
        cbn [enriched] in He. cbv zeta in He.
        rewrite heat_index_number, Hhi in He by done.
        cbn [mbind result_bind] in He. congruence.
    + destruct (enriched_returns Transaction now r Hall) as [? H]; [done|congruence].
  - left. rewrite (enriched_type_error k now r f v Hf Hv Hn) in He.
    split; [congruence|eauto].
Qed.

(** X5: when the enrichers raise.  An enricher raises [TypeError] exactly
    when a field it compares is present with a value that is not a number;
    and it raises nothing else, except [OverflowError], which only
    [enrich_sensor_data] can raise (from the heat index). *)
Theorem enrich_raises (k : kind) w data r :
  deref w data = Some r →
  ((∃ f v, f ∈ inspected_fields k ∧ r !! f = Some v ∧ ¬ is_number v) ↔
   (enrich k data w).1 = Raise TypeError) ∧
  (∀ e, (enrich k data w).1 = Raise e →
        e = TypeError ∨ (e = OverflowError ∧ k = SensorReading)).
Proof.
  intros Hr. split; [split|].
  - intros (f & v & Hf & Hv & Hn). apply (enrich_raise k w data r _ Hr).
    by apply (enriched_type_error k _ r f v).
  - intros He. apply (enrich_raise k w data r _ Hr) in He.
    apply enriched_raise_cases in He as [[_ H]|[[=] _]]. exact H.
  - intros e He. apply (enrich_raise k w data r _ Hr) in He.
    apply enriched_raise_cases in He as [[-> _]|H]; [by left|by right].
Qed.

Lemma enrich_raises_witness :
  (enrich Transaction 0%nat
     (world_of (sample_transaction (VStr "12.50")) "2024-01-01T00:00:05")).1
  = Raise TypeError.
Proof.
  apply (proj1 (enrich_raises Transaction
                  (world_of (sample_transaction (VStr "12.50")) _) 0%nat
                  (sample_transaction (VStr "12.50")) eq_refl)).
  exists "amount", (VStr "12.50"). split; [|split].
  - apply elem_of_cons. by left.
  - reflexivity.
  - by intros [? [=]].
Defined.

(** Enriching an enriched record: the fields the enricher reads are the
    input's, so the derived values are the same, and they are written over
    the ones already there. *)
Lemma enriched_again k now1 now2 r r1 :
  enriched k now1 r = Ok r1 → enriched k now2 r1 = enriched k now2 r.
Proof.
  intros H1.
  assert (∀ f, f ∈ inspected_fields k →
               dict_get r1 f (VInt 0) = dict_get r f (VInt 0)) as Hget.
  { intros f Hf. unfold dict_get.
    rewrite (proj1 (enriched_fields k now1 r r1 H1) f); [done|].
    destruct k; cbn [inspected_fields derived_fields] in *;
      split_elem Hf; compute_done. }
  destruct k; cbn [enriched inspected_fields] in *; cbv zeta in *.
  - rewrite (Hget "user_id") by (apply elem_of_cons; by left).
    destruct (user_segment _) as [s|]; [|done].
    cbn [mbind result_bind] in *. injection H1 as <-. f_equal.
    apply map_eq. intros f. unfold stamped.
    rewrite !lookup_insert. repeat case_decide; done.
  - rewrite (Hget "temperature") by (apply elem_of_cons; by left).
    rewrite (Hget "humidity")
      by (apply elem_of_cons; right; apply elem_of_cons; by left).
    destruct (heat_index _ _) as [hi|]; [|done].
    cbn [mbind result_bind] in *.
    destruct (py_or (py_gt _ (VInt 35)) _) as [ta|]; [|done].
    cbn [mbind result_bind] in *.
    destruct (py_or (py_gt _ (VInt 90)) _) as [ha|]; [|done].
    cbn [mbind result_bind] in *. injection H1 as <-. f_equal.
    apply map_eq. intros f. unfold stamped.
    rewrite !lookup_insert. repeat case_decide; done.
  - rewrite (Hget "amount") by (apply elem_of_cons; by left).
    destruct (transaction_category _) as [c|]; [|done].
    cbn [mbind result_bind] in *.
    destruct (fraud_risk _) as [fr|]; [|done].
    cbn [mbind result_bind] in *. injection H1 as <-. f_equal.
    apply map_eq. intros f. unfold stamped.
    rewrite !lookup_insert. repeat case_decide; done.
Qed.

(** X6: enriching twice.  If an enricher returned [l1] for [data], then at
    any later clock reading enriching [l1] returns too, with the very
    record that enriching [data] gives at that reading; when the clock has
    not moved, that record is the first result itself. *)
Theorem enrich_again (k : kind) w data r l1 w1 now2 :
  deref w data = Some r →
  enrich k data w = (Ok l1, w1) →
  ∃ l2 w2 l3 w3 r2,
    enrich k l1 (World (heap w1) now2) = (Ok l2, w2) ∧
    enrich k data (World (heap w1) now2) = (Ok l3, w3) ∧
    deref w2 l2 = Some r2 ∧ deref w3 l3 = Some r2 ∧
    (now2 = clock w → deref w1 l1 = Some r2).
Proof.
  intros Hr He.
  destruct (enrich_ok_inv k w data r l1 w1 Hr He) as (r1 & Hr1 & -> & ->).
  cbn [heap].
  pose proof (enriched_clock k (clock w) now2 r) as Hc. rewrite Hr1 in Hc.
  destruct (enriched k now2 r) as [r2|] eqn:Hr2; [|done].
  assert (enriched k now2 r1 = Ok r2) as Hr12
    by (by rewrite (enriched_again k (clock w) now2 r r1 Hr1)).
  exists (length (heap w ++ [r1])), (World ((heap w ++ [r1]) ++ [r2]) now2),
         (length (heap w ++ [r1])), (World ((heap w ++ [r1]) ++ [r2]) now2), r2.
  split; [|split; [|split; [|split]]].
  - apply (enrich_ok k (World (heap w ++ [r1]) now2) (length (heap w)) r1 r2);
      [apply deref_new | exact Hr12].
  - apply (enrich_ok k (World (heap w ++ [r1]) now2) data r r2);
      [by apply deref_old | exact Hr2].
  - apply deref_new.
  - apply deref_new.
  - intros ->. rewrite deref_new. congruence.
Qed.

Lemma enrich_again_witness :
  ∃ l2 w2 l3 w3 r2,
    enrich SensorReading 1%nat
      (World (heap (enrich SensorReading 0%nat
                      (world_of (sample_reading (VInt 30) (VInt 50))
                                "2024-01-01T00:00:05")).2)
             "2024-01-01T00:00:09") = (Ok l2, w2) ∧
    enrich SensorReading 0%nat
      (World (heap (enrich SensorReading 0%nat
                      (world_of (sample_reading (VInt 30) (VInt 50))
                                "2024-01-01T00:00:05")).2)
             "2024-01-01T00:00:09") = (Ok l3, w3) ∧
    deref w2 l2 = Some r2 ∧ deref w3 l3 = Some r2 ∧
    ("2024-01-01T00:00:09" = "2024-01-01T00:00:05" →
     deref (enrich SensorReading 0%nat
              (world_of (sample_reading (VInt 30) (VInt 50))
                        "2024-01-01T00:00:05")).2 1%nat = Some r2).
Proof.
  apply (enrich_again SensorReading
           (world_of (sample_reading (VInt 30) (VInt 50)) "2024-01-01T00:00:05")
           0%nat (sample_reading (VInt 30) (VInt 50)) 1%nat
           (enrich SensorReading 0%nat
              (world_of (sample_reading (VInt 30) (VInt 50))
                        "2024-01-01T00:00:05")).2
           "2024-01-01T00:00:09"); reflexivity.
Defined.

Lemma Zcompare_float_lt_mono c c' f :
  c' ≤ c → Zcompare_float c f = Some Lt → Zcompare_float c' f = Some Lt.
Proof.
  intros Hc. unfold Zcompare_float.
  destruct (Prim2SF f) as [s|s| |s m e].
  - destruct (Z.compare_spec c 0), (Z.compare_spec c' 0); try done; lia.
  - done.
  - done.
  - generalize (if s then Z.neg m else Z.pos m). intros n.
    destruct (0 <=? e).
    + generalize (n * 2 ^ e). intros k.
      destruct (Z.compare_spec c k), (Z.compare_spec c' k); try done; lia.
    + assert (c' * 2 ^ (- e) ≤ c * 2 ^ (- e)).
      { apply Z.mul_le_mono_nonneg_r; [apply Z.pow_nonneg|]; lia. }
      destruct (Z.compare_spec (c * 2 ^ (- e)) n),
               (Z.compare_spec (c' * 2 ^ (- e)) n); try done; lia.
Qed.

Lemma against_gt_mono a c c' :
  c' ≤ c → against a c = Some Gt → against a c' = Some Gt.
Proof.
  intros Hc. unfold against. destruct (as_num a) as [[z|f]|]; [| |done].
  - cbn. destruct (Z.compare_spec z c), (Z.compare_spec z c'); try done; lia.
  - cbn [num_compare].
    destruct (Zcompare_float c f) as [[]|] eqn:E; try done.
    by rewrite (Zcompare_float_lt_mono c c' f Hc E).
Qed.

Lemma risky_is_large a :
  is_number a →
  fraud_risk_spec a ≠ "low" → transaction_category_spec a = "large".
Proof.
  intros Ha. unfold fraud_risk_spec, transaction_category_spec.
  destruct (tests_against a 1000 Ha) as (_ & -> & -> & _).
  destruct (tests_against a 500 Ha) as (_ & -> & _ & _).
  destruct (tests_against a 200 Ha) as (-> & _ & _ & _).
  destruct (tests_against a 50 Ha) as (-> & _ & _ & ->).
  pose proof (against_gt_mono a 1000 500).
  pose proof (against_gt_mono a 500 200).
  pose proof (against_gt_mono a 500 50).
  destruct (against a 1000) as [[]|] eqn:E1000, (against a 500) as [[]|] eqn:E500;
    cbn; try done; intros _;
    (rewrite (H0 ltac:(lia)), (H1 ltac:(lia)) by first [done | apply H; [lia|done]]);
    reflexivity.
Qed.

Lemma py_lt_returns_number a c b : py_lt a (VInt c) = Ok b → is_number a.
Proof.
  unfold py_lt, py_compare. destruct (as_num a) eqn:E; [by eexists|].
  by destruct a.
Qed.

Lemma spec_labels a :
  transaction_category_spec a ∈ ["small"; "medium"; "large"] ∧
  fraud_risk_spec a ∈ ["high"; "medium"; "low"].
Proof.
  unfold transaction_category_spec, fraud_risk_spec.
  split; repeat case_match; compute_done.
Qed.

(** X7: the labels of [enrich_transaction].  In every record it returns,
    [transaction_category] is small, medium or large, [fraud_risk] is high,
    medium or low, and a risk other than low comes with the category large
    only. *)
Theorem risky_transactions_are_large w data r l w' r' :
  deref w data = Some r →
  enrich_transaction data w = (Ok l, w') →
  deref w' l = Some r' →
  ∃ category risk,
    r' !! "transaction_category" = Some (VStr category) ∧
    r' !! "fraud_risk" = Some (VStr risk) ∧
    category ∈ ["small"; "medium"; "large"] ∧
    risk ∈ ["high"; "medium"; "low"] ∧
    (risk ≠ "low" → category = "large").
Proof.
  intros Hr He Hr'.
  destruct (enrich_ok_inv Transaction w data r l w' Hr He)
    as (r1 & Hr1 & -> & ->).
  rewrite deref_new in Hr'. injection Hr' as <-.
  cbn [enriched] in Hr1. cbv zeta in Hr1.
  set (a := dict_get r "amount" (VInt 0)) in *.
  assert (is_number a) as Ha.
  { unfold transaction_category in Hr1.
    destruct (py_lt a (VInt 50)) as [b|] eqn:E; [|done].
    by apply py_lt_returns_number in E. }
  rewrite transaction_category_number, fraud_risk_number in Hr1 by done.
  injection Hr1 as <-.
  exists (transaction_category_spec a), (fraud_risk_spec a).
  split; [|split; [|split; [|split]]].
  - rewrite lookup_insert_ne by done. by rewrite lookup_insert_eq.
  - by rewrite lookup_insert_eq.
  - apply spec_labels.
  - apply spec_labels.
  - by apply risky_is_large.
Qed.

Lemma risky_transactions_are_large_witness :
  ∃ category risk,
    (<["fraud_risk" := VStr "medium"]>
     (<["transaction_category" := VStr "large"]>
     (stamped "2024-01-01T00:00:05" (sample_transaction (VFloat 750.5)))))
      !! "transaction_category" = Some (VStr category) ∧
    (<["fraud_risk" := VStr "medium"]>
     (<["transaction_category" := VStr "large"]>
     (stamped "2024-01-01T00:00:05" (sample_transaction (VFloat 750.5)))))
      !! "fraud_risk" = Some (VStr risk) ∧
    category ∈ ["small"; "medium"; "large"] ∧
    risk ∈ ["high"; "medium"; "low"] ∧
    (risk ≠ "low" → category = "large").
Proof.
  apply (risky_transactions_are_large
           (world_of (sample_transaction (VFloat 750.5)) "2024-01-01T00:00:05")
           0%nat (sample_transaction (VFloat 750.5)) 1%nat
           (World [sample_transaction (VFloat 750.5);
                   <["fraud_risk" := VStr "medium"]>
                   (<["transaction_category" := VStr "large"]>
                   (stamped "2024-01-01T00:00:05"
                      (sample_transaction (VFloat 750.5))))]
                  "2024-01-01T00:00:05")); reflexivity.
Defined.

(** ** Aggregators: counting *)

Lemma table_set_length {V : Type} (t : table V) k v :
  length (table_set t k v)
  = if table_find t k is Some _ then length t else S (length t).
Proof.
  rewrite <- (length_fmap fst (table_set t k v)), table_set_keys.
  destruct (table_find t k); rewrite ?length_app, length_fmap; cbn; lia.
Qed.

Lemma table_total_cons k v (t : table pyval) :
  table_total ((k, v) :: t) = int_of v + table_total t.
Proof. reflexivity. Qed.

(** One more occurrence of [k]: its count goes up by one (from 0 when [k]
    is new), every entry stays a positive integer, and the total goes up
    by one. *)
Lemma count_step (t : table pyval) k :
  Forall positive_count t →
  ∃ c, table_get t k (VInt 0) = VInt c ∧ 0 ≤ c ∧
       Forall positive_count (table_set t k (VInt (c + 1))) ∧
       table_total (table_set t k (VInt (c + 1))) = table_total t + 1.
Proof.
  unfold table_get. induction t as [|[k0 v0] t IH]; intros Ht.
  - exists 0. cbn. repeat split; try lia.
    repeat constructor. exists 1. split; [done|lia].
  - apply Forall_cons in Ht as [(c0 & Hc0 & Hpos) Ht]. cbn in Hc0. subst v0.
    cbn [table_find table_set]. destruct (py_eq k0 k).
    + exists c0. rewrite !table_total_cons. cbn [default int_of].
      repeat split; try lia.
      apply Forall_cons. split; [|done]. exists (c0 + 1). split; [done|lia].
    + destruct (IH Ht) as (c & Hc & Hc0 & Hf & Htot). exists c.
      repeat split; try done.
      * apply Forall_cons. split; [|done]. exists c0. split; [done|lia].
      * rewrite !table_total_cons. lia.
Qed.

Lemma user_events_loop_any events :
  ∃ event_types user_activity,
    foldl user_events_step (Ok ([], [])) events
    = Ok (event_types, user_activity) ∧
    Forall positive_count event_types ∧
    table_total event_types = Z.of_nat (length events) ∧
    (length user_activity ≤ length events)%nat ∧
    (events ≠ [] → (1 ≤ length user_activity)%nat).
Proof.
  induction events as [|e events IH] using rev_ind.
  - exists [], []. cbn. repeat split; try done.
  - destruct IH as (et & ua & Hrun & Hpos & Htot & Hle & _).
    rewrite foldl_app. cbn [foldl]. rewrite Hrun.
    unfold user_events_step at 1. cbn [mbind result_bind].
    destruct (count_step et (dict_get e "event_type" (VStr "unknown")) Hpos)
      as (c & -> & Hc & Hpos' & Htot').
    cbn [py_add as_num num_add of_num mbind result_bind].
    eexists _, _. split; [reflexivity|].
    rewrite length_app. cbn [length].
    split; [done|]. split; [lia|].
    unfold table_append. rewrite table_set_length.
    destruct (table_find ua _) eqn:F; [|split; intros; lia].
    destruct ua; [done|]. cbn [length] in *. split; intros; lia.
Qed.

(** X8: [aggregate_user_events] on records of scalars, of whatever type:
    [event_type] and [user_id] may hold [None], a boolean, an integer, a
    float or a string, or be absent.  On a non-empty list of fewer than
    2^53 such events it returns; [total_events] is the length [n], the
    event type counts are integers of at least 1 that add up to [n],
    [active_users] lies between 1 and [n], and the average is
    [float(n) / float(users)]. *)
Theorem aggregate_user_events_on_scalars (events : list dict) :
  events ≠ [] →
  Z.of_nat (length events) < 2 ^ 53 →
  ∃ counts users,
    aggregate_user_events events
    = Ok (user_events_summary (Z.of_nat (length events)) counts users
            (VFloat (Z_to_float (Z.of_nat (length events))
                     / Z_to_float users))) ∧
    1 ≤ users ≤ Z.of_nat (length events) ∧
    Forall positive_count counts ∧
    table_total counts = Z.of_nat (length events).
Proof.
  intros Hne Hsmall.
  destruct (user_events_loop_any events)
    as (et & ua & Hrun & Hpos & Htot & Hle & Hge).
  specialize (Hge Hne).
  exists et, (Z.of_nat (length ua)). split; [|repeat split; try done; lia].
  unfold aggregate_user_events. destruct events as [|e0 events]; [done|].
  rewrite Hrun. cbn [mbind result_bind].
  destruct ua as [|u ua]; [cbn in Hge; lia|].
  unfold VLen. rewrite py_truediv_ints, int_truediv_small by lia.
  reflexivity.
Qed.

Lemma aggregate_user_events_on_scalars_witness :
  ∃ counts users,
    aggregate_user_events
      [sample_event VNone "a"; delete "event_type" (sample_event (VFloat 1.5) "a")]
    = Ok (user_events_summary 2 counts users
            (VFloat (Z_to_float 2 / Z_to_float users))) ∧
    1 ≤ users ≤ 2 ∧
    Forall positive_count counts ∧
    table_total counts = 2.
Proof.
  apply (aggregate_user_events_on_scalars
           [sample_event VNone "a";
            delete "event_type" (sample_event (VFloat 1.5) "a")]).
  - discriminate.
  - reflexivity.
Defined.

(** ** Aggregators: grouping *)

Lemma py_eq_str_r s x : py_eq x (VStr s) = true ↔ x = VStr s.
Proof.
  destruct x as [| b | z | g | t]; cbn; try (split; [done|discriminate]).
  rewrite String.eqb_eq. split; congruence.
Qed.

Lemma py_eq_str_refl s : py_eq (VStr s) (VStr s) = true.
Proof. by apply py_eq_str. Qed.

(** Looking up a string key after an assignment, whatever the other keys
    of the table are. *)
Lemma table_find_set_str {V : Type} (t : table V) k v s :
  table_find (table_set t k v) (VStr s)
  = if py_eq k (VStr s) then Some v else table_find t (VStr s).
Proof.
  induction t as [|[k0 v0] t IH]; cbn [table_set table_find]; [done|].
  destruct (py_eq k0 k) eqn:E; cbn [table_find].
  - destruct (py_eq k (VStr s)) eqn:E1, (py_eq k0 (VStr s)) eqn:E0; try done.
    + apply py_eq_str_r in E1 as ->. apply py_eq_str_r in E.
      subst. by rewrite py_eq_str_refl in E0.
    + apply py_eq_str_r in E0 as ->. apply py_eq_str in E.
      subst. by rewrite py_eq_str_refl in E1.
  - rewrite IH.
    destruct (py_eq k (VStr s)) eqn:E1, (py_eq k0 (VStr s)) eqn:E0; try done.
    apply py_eq_str_r in E1 as ->. apply py_eq_str_r in E0 as ->.
    by rewrite py_eq_str_refl in E.
Qed.

Lemma running_total_snoc l x :
  running_total (l ++ [x]) = running_total l ≫= λ a, py_add a x.
Proof. unfold running_total. by rewrite foldl_app. Qed.

Lemma filter_snoc_py (f : dict → pyval) x (ts : list dict) t :
  filter (λ t, py_eq (f t) x = true) (ts ++ [t])
  = filter (λ t, py_eq (f t) x = true) ts
    ++ (if py_eq (f t) x then [t] else []).
Proof.
  rewrite filter_app. f_equal. destruct (py_eq (f t) x) eqn:E.
  - by rewrite filter_cons_True.
  - rewrite filter_cons_False; [done|]. by rewrite E.
Qed.

Lemma snoc_match {A B : Type} (l : list A) (x : A) (a : B) (f : list A → B) :
  match l ++ [x] with [] => a | y :: l' => f (y :: l') end = f (l ++ [x]).
Proof. by destruct l. Qed.

Lemma transactions_loop ts currencies merchants :
  foldl transactions_step (Ok ([], [])) ts = Ok (currencies, merchants) →
  grouped ts currencies merchants.
Proof.
  revert currencies merchants.
  induction ts as [|t ts IH] using rev_ind; intros cur mer.
  - cbn. intros [= <- <-]. split; cbn; try done.
  - rewrite foldl_app. cbn [foldl].
    destruct (foldl transactions_step (Ok ([], [])) ts) as [[cur0 mer0]|] eqn:Hrun;
      [|done].
    destruct (IH cur0 mer0 eq_refl) as [Hpos Htot Hmer Hcur].
    unfold transactions_step at 1. cbn [mbind result_bind].
    fold (currency_of t) (merchant_of t) (amount_of t).
    destruct (py_add (table_get cur0 (currency_of t) (VInt 0)) (amount_of t))
      as [total|] eqn:Hadd; [|done].
    cbn [mbind result_bind].
    destruct (count_step mer0 (merchant_of t) Hpos)
      as (c & Hget & Hc & Hpos' & Htot').
    rewrite Hget. cbn [py_add as_num num_add of_num mbind result_bind].
    intros [= <- <-]. split.
    + done.
    + rewrite length_app. cbn [length]. lia.
    + intros s. rewrite table_find_set_str. unfold with_merchant.
      rewrite filter_snoc_py. fold (with_merchant (VStr s) ts).
      specialize (Hmer s).
      destruct (py_eq (merchant_of t) (VStr s)) eqn:E.
      * apply py_eq_str_r in E. rewrite E in Hget.
        unfold table_get in Hget. rewrite Hmer in Hget.
        rewrite (snoc_match _ _ _ (λ l, Some (VLen l))).
        unfold VLen. rewrite length_app. cbn [length]. do 2 f_equal.
        destruct (with_merchant (VStr s) ts); cbn in Hget;
          injection Hget as <-; cbn [length]; lia.
      * by rewrite app_nil_r.
    + intros s. rewrite table_find_set_str. unfold with_currency.
      rewrite filter_snoc_py. fold (with_currency (VStr s) ts).
      specialize (Hcur s).
      destruct (py_eq (currency_of t) (VStr s)) eqn:E.
      * apply py_eq_str_r in E. rewrite E in Hadd.
        rewrite (snoc_match _ _ _
                   (λ l, ∃ v, Some total = Some v ∧
                              running_total (amount_of <$> l) = Ok v)).
        exists total. split; [done|].
        rewrite fmap_app. cbn [fmap list_fmap]. rewrite running_total_snoc.
        unfold table_get in Hadd.
        destruct (with_currency (VStr s) ts) as [|t0 l0].
        -- rewrite Hcur in Hadd. exact Hadd.
        -- destruct Hcur as (v & Hv & Hsum). rewrite Hv in Hadd.
           rewrite Hsum. exact Hadd.
      * by rewrite app_nil_r.
Qed.

Lemma aggregate_transactions_inv ts m :
  ts ≠ [] → aggregate_transactions ts = Ok m →
  ∃ currencies merchants total avg hi lo,
    foldl transactions_step (Ok ([], [])) ts = Ok (currencies, merchants) ∧
    py_sum (amount_of <$> ts) = Ok total ∧
    py_truediv total (VLen ts) = Ok avg ∧
    py_max (amount_of <$> ts) = Ok hi ∧
    py_min (amount_of <$> ts) = Ok lo ∧
    m = transactions_summary ts total avg currencies merchants hi lo.
Proof.
  intros Hne. unfold aggregate_transactions.
  destruct ts as [|t0 ts]; [done|]. cbv zeta.
  fold amount_of. set (l := t0 :: ts).
  destruct (foldl transactions_step (Ok ([], [])) l) as [[cur mer]|] eqn:H1;
    [|done].
  cbn [mbind result_bind].
  destruct (py_sum (amount_of <$> l)) as [total|] eqn:H2; [|done].
  cbn [mbind result_bind].
  assert (VLen (amount_of <$> l) = VLen l) as ->
    by (unfold VLen; by rewrite length_fmap).
  destruct (py_truediv total (VLen l)) as [avg|] eqn:H3; [|done].
  cbn [mbind result_bind].
  destruct (py_max (amount_of <$> l)) as [hi|] eqn:H4; [|done].
  cbn [mbind result_bind].
  destruct (py_min (amount_of <$> l)) as [lo|] eqn:H5; [|done].
  cbn [mbind result_bind]. intros [= <-].
  by exists cur, mer, total, avg, hi, lo.
Qed.

(** X9: the groups of [aggregate_transactions].  Whenever it returns a
    summary for a non-empty list, [total_transactions] is the length, the
    merchant counts are integers of at least 1 that add up to the length,
    a merchant name is counted as many times as there are transactions with
    that merchant (unknown for a transaction without one), and the total of
    a currency is the sum, left to right from 0, of the amounts (0 when
    missing) of the transactions in that currency; a name no transaction
    carries has no entry. *)
Theorem aggregate_transactions_groups ts m :
  ts ≠ [] →
  aggregate_transactions ts = Ok m →
  ∃ currencies merchants,
    m !! "total_transactions" = Some (AVal (VLen ts)) ∧
    m !! "currency_totals" = Some (ATable currencies) ∧
    m !! "merchant_counts" = Some (ATable merchants) ∧
    grouped ts currencies merchants.
Proof.
  intros Hne Hm.
  destruct (aggregate_transactions_inv ts m Hne Hm)
    as (cur & mer & total & avg & hi & lo & Hloop & _ & _ & _ & _ & ->).
  exists cur, mer. split; [done|]. split; [done|]. split; [done|].
  by apply transactions_loop.
Qed.

Lemma aggregate_transactions_groups_witness :
  ∃ currencies merchants,
    sample_transactions_summary !! "total_transactions"
    = Some (AVal (VLen sample_transactions)) ∧
    sample_transactions_summary !! "currency_totals"
    = Some (ATable currencies) ∧
    sample_transactions_summary !! "merchant_counts"
    = Some (ATable merchants) ∧
    grouped sample_transactions currencies merchants.
Proof.
  apply (aggregate_transactions_groups sample_transactions).
  - discriminate.
  - vm_compute. reflexivity.
Defined.

(** ** Aggregators: integer amounts *)

Lemma total_step (t : table pyval) k z :
  Forall int_valued t →
  ∃ c, table_get t k (VInt 0) = VInt c ∧
       Forall int_valued (table_set t k (VInt (c + z))) ∧
       table_total (table_set t k (VInt (c + z))) = table_total t + z.
Proof.
  unfold table_get. induction t as [|[k0 v0] t IH]; intros Ht.
  - exists 0. cbn. repeat split; try lia. repeat constructor. by eexists.
  - apply Forall_cons in Ht as [[c0 Hc0] Ht]. cbn in Hc0. subst v0.
    cbn [table_find table_set]. destruct (py_eq k0 k).
    + exists c0. rewrite !table_total_cons. cbn [default int_of].
      repeat split; try lia.
      apply Forall_cons. split; [by eexists|done].
    + destruct (IH Ht) as (c & Hc & Hf & Htot). exists c.
      repeat split; try done.
      * apply Forall_cons. split; [by eexists|done].
      * rewrite !table_total_cons. lia.
Qed.

Lemma amounts_int ts :
  int_amounts ts → amount_of <$> ts = VInt <$> amounts_Z ts.
Proof.
  intros H. unfold amounts_Z. rewrite <- list_fmap_compose.
  apply list_fmap_ext. intros i t Ht.
  destruct (H t) as [z Hz]; [by eapply list_elem_of_lookup_2|].
  cbn. by rewrite Hz.
Qed.

Lemma sum_Z_snoc l z : sum_Z (l ++ [z]) = sum_Z l + z.
Proof. unfold sum_Z. induction l as [|x l IH]; cbn; lia. Qed.

Lemma py_sum_ints l : py_sum (VInt <$> l) = Ok (VInt (sum_Z l)).
Proof.
  unfold py_sum. induction l as [|z l IH] using rev_ind; [done|].
  rewrite fmap_app, foldl_app, IH, sum_Z_snoc. reflexivity.
Qed.

Lemma py_max_from_ints m l :
  py_max_from (VInt m) (VInt <$> l) = Ok (VInt (foldl Z.max m l)).
Proof.
  revert m. induction l as [|z l IH]; intros m; [done|].
  cbn [fmap list_fmap py_max_from foldl].
  unfold py_gt, py_compare. cbn [as_num num_compare mbind result_bind is_gt].
  destruct (Z.compare_spec z m); rewrite IH; do 3 f_equal; lia.
Qed.

Lemma py_min_from_ints m l :
  py_min_from (VInt m) (VInt <$> l) = Ok (VInt (foldl Z.min m l)).
Proof.
  revert m. induction l as [|z l IH]; intros m; [done|].
  cbn [fmap list_fmap py_min_from foldl].
  unfold py_lt, py_compare. cbn [as_num num_compare mbind result_bind is_lt].
  destruct (Z.compare_spec z m); rewrite IH; do 3 f_equal; lia.
Qed.

Lemma foldl_max_spec m l :
  foldl Z.max m l ∈ m :: l ∧ ∀ z, z ∈ m :: l → z ≤ foldl Z.max m l.
Proof.
  revert m. induction l as [|x l IH]; intros m; cbn [foldl].
  - split; [apply elem_of_cons; by left|].
    intros z [->|?%elem_of_nil]%elem_of_cons; [lia|done].
  - destruct (IH (Z.max m x)) as [Hin Hle]. split.
    + apply elem_of_cons in Hin as [Hin|Hin].
      * rewrite Hin. destruct (Z.max_spec m x) as [[_ ->]|[_ ->]].
        -- apply elem_of_cons. right. apply elem_of_cons. by left.
        -- apply elem_of_cons. by left.
      * apply elem_of_cons. right. apply elem_of_cons. by right.
    + intros z Hz.
      assert (z ≤ Z.max m x ∨ z ∈ l) as [?|?].
      { apply elem_of_cons in Hz as [->|Hz]; [left; lia|].
        apply elem_of_cons in Hz as [->|Hz]; [left; lia|by right]. }
      * etrans; [done|]. apply Hle. apply elem_of_cons. by left.
      * apply Hle. apply elem_of_cons. by right.
Qed.

Lemma foldl_min_spec m l :
  foldl Z.min m l ∈ m :: l ∧ ∀ z, z ∈ m :: l → foldl Z.min m l ≤ z.
Proof.
  revert m. induction l as [|x l IH]; intros m; cbn [foldl].
  - split; [apply elem_of_cons; by left|].
    intros z [->|?%elem_of_nil]%elem_of_cons; [lia|done].
  - destruct (IH (Z.min m x)) as [Hin Hle]. split.
    + apply elem_of_cons in Hin as [Hin|Hin].
      * rewrite Hin. destruct (Z.min_spec m x) as [[_ ->]|[_ ->]].
        -- apply elem_of_cons. by left.
        -- apply elem_of_cons. right. apply elem_of_cons. by left.
      * apply elem_of_cons. right. apply elem_of_cons. by right.
    + intros z Hz.
      assert (Z.min m x ≤ z ∨ z ∈ l) as [?|?].
      { apply elem_of_cons in Hz as [->|Hz]; [left; lia|].
        apply elem_of_cons in Hz as [->|Hz]; [left; lia|by right]. }
      * etrans; [|done]. apply Hle. apply elem_of_cons. by left.
      * apply Hle. apply elem_of_cons. by right.
Qed.

Lemma transactions_loop_ints ts :
  int_amounts ts →
  ∃ currencies merchants,
    foldl transactions_step (Ok ([], [])) ts = Ok (currencies, merchants) ∧
    Forall int_valued currencies ∧ Forall positive_count merchants ∧
    table_total currencies = sum_Z (amounts_Z ts).
Proof.
  induction ts as [|t ts IH] using rev_ind; intros Hint.
  - exists [], []. cbn. repeat split; done.
  - destruct IH as (cur & mer & Hrun & Hcur & Hmer & Htot).
    { intros t' Ht'. apply Hint, elem_of_app. by left. }
    destruct (Hint t) as [z Hz].
    { apply elem_of_app. right. by apply list_elem_of_singleton. }
    rewrite foldl_app. cbn [foldl]. rewrite Hrun.
    unfold transactions_step at 1. cbn [mbind result_bind].
    fold (currency_of t) (merchant_of t) (amount_of t). rewrite Hz.
    destruct (total_step cur (currency_of t) z Hcur) as (c & -> & Hcur' & Htot').
    cbn [py_add as_num num_add of_num mbind result_bind].
    destruct (count_step mer (merchant_of t) Hmer) as (n & -> & _ & Hmer' & _).
    cbn [py_add as_num num_add of_num mbind result_bind].
    eexists _, _. split; [reflexivity|]. repeat split; try done.
    assert (amounts_Z (ts ++ [t]) = amounts_Z ts ++ [z]) as ->.
    { unfold amounts_Z. rewrite fmap_app. cbn. by rewrite Hz. }
    rewrite sum_Z_snoc. lia.
Qed.

(** X10: [aggregate_transactions] on integer amounts.  On a non-empty list
    whose amounts (0 when missing) are integers, the result is the summary
    with the exact integer sum [S] as [total_amount] and [S / n] as
    [avg_amount], this division being the only step that can raise; the
    currency totals are integers that add up to [S]; [max_transaction] and
    [min_transaction] are amounts of the list that bound all of them; and
    with [S] and [n] below 2^53 the division returns
    [float(S) / float(n)]. *)
Theorem aggregate_transactions_int_amounts ts :
  ts ≠ [] →
  int_amounts ts →
  ∃ currencies merchants hi lo,
    aggregate_transactions ts
    = (avg ← py_truediv (VInt (sum_Z (amounts_Z ts))) (VLen ts);
       Ok (transactions_summary ts (VInt (sum_Z (amounts_Z ts))) avg
             currencies merchants (VInt hi) (VInt lo))) ∧
    Forall int_valued currencies ∧
    table_total currencies = sum_Z (amounts_Z ts) ∧
    hi ∈ amounts_Z ts ∧ lo ∈ amounts_Z ts ∧
    (∀ z, z ∈ amounts_Z ts → lo ≤ z ≤ hi) ∧
    (Z.abs (sum_Z (amounts_Z ts)) < 2 ^ 53 →
     Z.of_nat (length ts) < 2 ^ 53 →
     py_truediv (VInt (sum_Z (amounts_Z ts))) (VLen ts)
     = Ok (VFloat (Z_to_float (sum_Z (amounts_Z ts))
                   / Z_to_float (Z.of_nat (length ts))))).
Proof.
  intros Hne Hint.
  destruct (transactions_loop_ints ts Hint)
    as (cur & mer & Hrun & Hcur & Hmer & Htot).
  pose proof (amounts_int ts Hint) as Ham.
  destruct (amounts_Z ts) as [|a0 l] eqn:Hl.
  { destruct ts; [done|discriminate]. }
  exists cur, mer, (foldl Z.max a0 l), (foldl Z.min a0 l).
  destruct (foldl_max_spec a0 l) as [Hmax1 Hmax2].
  destruct (foldl_min_spec a0 l) as [Hmin1 Hmin2].
  split; [|repeat split; try done; try (by apply Hmin2); try (by apply Hmax2)].
  - unfold aggregate_transactions. destruct ts as [|t0 ts]; [done|].
    cbv zeta. fold amount_of. rewrite Hrun, Ham. cbn [mbind result_bind].
    rewrite py_sum_ints. cbn [mbind result_bind].
    assert (VLen (VInt <$> a0 :: l) = VLen (t0 :: ts)) as ->.
    { unfold VLen. rewrite length_fmap, <- Hl. unfold amounts_Z.
      by rewrite length_fmap. }
    destruct (py_truediv _ _) as [avg|]; [|done]. cbn [mbind result_bind].
    cbn [fmap list_fmap py_max py_min].
    change (list_fmap Z pyval VInt l) with (VInt <$> l).
    rewrite py_max_from_ints, py_min_from_ints. reflexivity.
  - intros HS Hn. unfold VLen. rewrite py_truediv_ints.
    rewrite int_truediv_small; [done| |done|lia].
    destruct ts; [done|]. cbn [length]. lia.
Qed.

Lemma aggregate_transactions_int_amounts_witness :
  ∃ currencies merchants hi lo,
    aggregate_transactions sample_int_transactions
    = (avg ← py_truediv (VInt (sum_Z (amounts_Z sample_int_transactions)))
                        (VLen sample_int_transactions);
       Ok (transactions_summary sample_int_transactions
             (VInt (sum_Z (amounts_Z sample_int_transactions))) avg
             currencies merchants (VInt hi) (VInt lo))) ∧
    Forall int_valued currencies ∧
    table_total currencies = sum_Z (amounts_Z sample_int_transactions) ∧
    hi ∈ amounts_Z sample_int_transactions ∧
    lo ∈ amounts_Z sample_int_transactions ∧
    (∀ z, z ∈ amounts_Z sample_int_transactions → lo ≤ z ≤ hi) ∧
    (Z.abs (sum_Z (amounts_Z sample_int_transactions)) < 2 ^ 53 →
     Z.of_nat (length sample_int_transactions) < 2 ^ 53 →
     py_truediv (VInt (sum_Z (amounts_Z sample_int_transactions)))
                (VLen sample_int_transactions)
     = Ok (VFloat (Z_to_float (sum_Z (amounts_Z sample_int_transactions))
                   / Z_to_float (Z.of_nat (length sample_int_transactions))))).
Proof.
  apply (aggregate_transactions_int_amounts sample_int_transactions).
  - discriminate.
  - intros t Ht. unfold sample_int_transactions in Ht.
    repeat (apply elem_of_cons in Ht as [->|Ht]);
      [..|by apply elem_of_nil in Ht]; eexists; reflexivity.
Defined.

(** ** Aggregators: sensor readings *)

Lemma py_max_from_elem m l v : py_max_from m l = Ok v → v ∈ m :: l.
Proof.
  revert m. induction l as [|x l IH]; intros m; cbn [py_max_from].
  - intros [= <-]. apply elem_of_cons. by left.
  - destruct (py_gt x m) as [[|]|]; cbn [mbind result_bind]; [| |done];
      intros H%IH; apply elem_of_cons in H as [->|H];
      apply elem_of_cons; (try by left); right; apply elem_of_cons;
      (try by left); by right.
Qed.

Lemma py_min_from_elem m l v : py_min_from m l = Ok v → v ∈ m :: l.
Proof.
  revert m. induction l as [|x l IH]; intros m; cbn [py_min_from].
  - intros [= <-]. apply elem_of_cons. by left.
  - destruct (py_lt x m) as [[|]|]; cbn [mbind result_bind]; [| |done];
      intros H%IH; apply elem_of_cons in H as [->|H];
      apply elem_of_cons; (try by left); right; apply elem_of_cons;
      (try by left); by right.
Qed.

Lemma py_max_elem l v : py_max l = Ok v → v ∈ l.
Proof. destruct l; [done|]. apply py_max_from_elem. Qed.

Lemma py_min_elem l v : py_min l = Ok v → v ∈ l.
Proof. destruct l; [done|]. apply py_min_from_elem. Qed.

Lemma aggregate_sensor_data_inv rs m :
  rs ≠ [] → aggregate_sensor_data rs = Ok m →
  ∃ hi lo,
    py_max (temperature_of <$> rs) = Ok hi ∧
    py_min (temperature_of <$> rs) = Ok lo ∧
    m !! "total_readings" = Some (AVal (VLen rs)) ∧
    m !! "max_temperature" = Some (AVal hi) ∧
    m !! "min_temperature" = Some (AVal lo) ∧
    m !! "alerts" = Some (AVal (VInt (count_where flagged rs))).
Proof.
  intros Hne. unfold aggregate_sensor_data.
  destruct rs as [|r0 rs]; [done|]. cbv zeta.
  fold temperature_of. set (l := r0 :: rs).
  destruct (py_sum (temperature_of <$> l)) as [st|]; [|done].
  cbn [mbind result_bind].
  destruct (py_truediv st _); [|done]. cbn [mbind result_bind].
  destruct (py_sum ((λ r, dict_get r "humidity" (VInt 0)) <$> l)) as [sh|];
    [|done].
  cbn [mbind result_bind].
  destruct (py_truediv sh _); [|done]. cbn [mbind result_bind].
  destruct (py_sum ((λ r, dict_get r "pressure" (VInt 0)) <$> l)) as [sp|];
    [|done].
  cbn [mbind result_bind].
  destruct (py_truediv sp _); [|done]. cbn [mbind result_bind].
  destruct (py_max (temperature_of <$> l)) as [hi|] eqn:Hhi; [|done].
  cbn [mbind result_bind].
  destruct (py_min (temperature_of <$> l)) as [lo|] eqn:Hlo; [|done].
  cbn [mbind result_bind]. intros [= <-]. exists hi, lo.
  repeat split; try done.
Qed.

Lemma count_where_bounds {A : Type} (P : A → bool) (l : list A) :
  0 ≤ count_where P l ≤ Z.of_nat (length l).
Proof.
  unfold count_where. split; [lia|]. apply inj_le, length_filter.
Qed.

Lemma count_where_none {A : Type} (P : A → bool) (l : list A) :
  (∀ x, x ∈ l → P x = false) → count_where P l = 0.
Proof.
  intros H. unfold count_where.
  assert (filter (λ x, P x = true) l = []) as ->; [|done].
  induction l as [|x l IH]; [done|].
  rewrite filter_cons_False.
  - apply IH. intros y Hy. apply H. apply elem_of_cons. by right.
  - rewrite H; [done|]. apply elem_of_cons. by left.
Qed.

(** X11: what [aggregate_sensor_data] reads.  Whenever it returns a summary
    for a non-empty list, [total_readings] is the length, [max_temperature]
    and [min_temperature] are temperatures of the list (0 for a reading
    without one), and [alerts] lies between 0 and the length; it is 0 when
    no reading carries the key [temperature_alert], as for readings that
    were not enriched. *)
Theorem aggregate_sensor_data_reads rs m :
  rs ≠ [] →
  aggregate_sensor_data rs = Ok m →
  ∃ hi lo alerts,
    m !! "total_readings" = Some (AVal (VLen rs)) ∧
    m !! "max_temperature" = Some (AVal hi) ∧
    m !! "min_temperature" = Some (AVal lo) ∧
    m !! "alerts" = Some (AVal (VInt alerts)) ∧
    hi ∈ temperature_of <$> rs ∧ lo ∈ temperature_of <$> rs ∧
    0 ≤ alerts ≤ Z.of_nat (length rs) ∧
    ((∀ r, r ∈ rs → r !! "temperature_alert" = None) → alerts = 0).
Proof.
  intros Hne Hm.
  destruct (aggregate_sensor_data_inv rs m Hne Hm)
    as (hi & lo & Hhi & Hlo & H1 & H2 & H3 & H4).
  exists hi, lo, (count_where flagged rs).
  repeat split; try done.
  - by apply py_max_elem.
  - by apply py_min_elem.
  - apply count_where_bounds.
  - apply count_where_bounds.
  - intros Hraw. apply count_where_none. intros r Hr.
    unfold flagged, dict_get. by rewrite (Hraw r Hr).
Qed.

Lemma aggregate_sensor_data_reads_witness :
  ∃ hi lo alerts,
    sensor_summary sample_flagged_readings (VFloat 28) (VFloat 50)
      (VFloat 1013) (VInt 36) (VInt 20) 1 !! "total_readings"
    = Some (AVal (VLen sample_flagged_readings)) ∧
    sensor_summary sample_flagged_readings (VFloat 28) (VFloat 50)
      (VFloat 1013) (VInt 36) (VInt 20) 1 !! "max_temperature"
    = Some (AVal hi) ∧
    sensor_summary sample_flagged_readings (VFloat 28) (VFloat 50)
      (VFloat 1013) (VInt 36) (VInt 20) 1 !! "min_temperature"
    = Some (AVal lo) ∧
    sensor_summary sample_flagged_readings (VFloat 28) (VFloat 50)
      (VFloat 1013) (VInt 36) (VInt 20) 1 !! "alerts"
    = Some (AVal (VInt alerts)) ∧
    hi ∈ temperature_of <$> sample_flagged_readings ∧
    lo ∈ temperature_of <$> sample_flagged_readings ∧
    0 ≤ alerts ≤ Z.of_nat (length sample_flagged_readings) ∧
    ((∀ r, r ∈ sample_flagged_readings → r !! "temperature_alert" = None) →
     alerts = 0).
Proof.
  apply (aggregate_sensor_data_reads sample_flagged_readings).
  - discriminate.
  - vm_compute. reflexivity.
Defined.

Lemma enriched_from_flag raw r' :
  enriched_from raw r' →
  flagged r' = temperature_alert_spec (temperature_of raw).
Proof.
  intros (w & data & l & w' & Hraw & He & Hr').
  destruct (enrich_ok_inv SensorReading w data raw l w' Hraw He)
    as (r1 & Hr1 & -> & ->).
  rewrite deref_new in Hr'. injection Hr' as <-.
  cbn [enriched] in Hr1. cbv zeta in Hr1. fold (temperature_of raw) in Hr1.
  set (t := temperature_of raw) in *.
  assert (is_number t) as Ht.
  { unfold heat_index, py_and, py_gt, py_compare in Hr1.
    destruct (as_num t) eqn:E; [by eexists|]. by destruct t. }
  destruct (heat_index t _) as [hi|]; [|done]. cbn [mbind result_bind] in Hr1.
  rewrite temperature_alert_number in Hr1 by done.
  cbn [mbind result_bind] in Hr1.
  destruct (py_or _ _) as [ha|]; [|done]. cbn [mbind result_bind] in Hr1.
  injection Hr1 as <-. unfold flagged, dict_get.
  rewrite lookup_insert_ne by done. by rewrite lookup_insert_eq.
Qed.

Lemma count_where_Forall2 {A B : Type} (P : A → bool) (Q : B → bool)
    (R : A → B → Prop) l k :
  (∀ x y, R x y → Q y = P x) → Forall2 R l k →
  count_where Q k = count_where P l.
Proof.
  intros HR H. unfold count_where. do 2 f_equal.
  induction H as [|x y l k Hxy _ IH]; [done|].
  rewrite !filter_cons, (HR x y Hxy).
  destruct (decide (P x = true)); cbn; by rewrite IH.
Qed.

(** X12: enriching, then aggregating.  When each reading of the list is
    what [enrich_sensor_data] returned for the raw reading at the same
    position, [alerts] is the number of raw readings whose temperature is
    above 35 or below 5, and [total_readings] the number of raw readings,
    whenever [aggregate_sensor_data] returns. *)
Theorem alerts_of_enriched_readings raws rs m :
  Forall2 enriched_from raws rs →
  rs ≠ [] →
  aggregate_sensor_data rs = Ok m →
  m !! "alerts"
  = Some (AVal (VInt (count_where
                        (λ raw, temperature_alert_spec (temperature_of raw))
                        raws))) ∧
  m !! "total_readings" = Some (AVal (VLen raws)).
Proof.
  intros Hen Hne Hm.
  destruct (aggregate_sensor_data_inv rs m Hne Hm)
    as (hi & lo & _ & _ & H1 & _ & _ & H4).
  split.
  - rewrite H4. do 3 f_equal.
    apply (count_where_Forall2 _ _ enriched_from); [|done].
    intros raw r'. apply enriched_from_flag.
  - rewrite H1. unfold VLen. by rewrite (Forall2_length _ _ _ Hen).
Qed.

Lemma alerts_of_enriched_readings_witness :
  sensor_summary sample_readings (VFloat 28) (VFloat 50) (VFloat 1013)
    (VInt 36) (VInt 20) 1 !! "alerts"
  = Some (AVal (VInt (count_where
                        (λ raw, temperature_alert_spec (temperature_of raw))
                        sample_readings))) ∧
  sensor_summary sample_readings (VFloat 28) (VFloat 50) (VFloat 1013)
    (VInt 36) (VInt 20) 1 !! "total_readings"
  = Some (AVal (VLen sample_readings)).
Proof.
  apply (alerts_of_enriched_readings sample_readings
           (enrich_sample <$> sample_readings)).
  - repeat constructor;
      (eexists (world_of _ "2024-01-01T00:00:01"), 0%nat, 1%nat, _;
       split; [reflexivity|]; split; [vm_compute; reflexivity|];
       vm_compute; reflexivity).
  - discriminate.
  - vm_compute. reflexivity.
Defined.
